(** * F5 iControl-REST simulator: identifier resolution, authentication
      gate and resource store

    A shallow embedding of [f5_simulator.py].  Every handler is a function
    from the request data and the four process-wide dictionaries to an
    outcome and the dictionaries afterwards. *)

From Stdlib Require Import ZArith Ascii String List.
From stdpp Require Import base option list strings gmap fin_maps pretty.

Set Warnings "-register-all,-clear-no-such-hyp".

Open Scope string_scope.
Open Scope Z_scope.

(** ** Python string primitives used by the simulator *)

Module PyStr.

(** [s.startswith(c)] for a one-character prefix. *)
Definition startswith (c : ascii) (s : string) : bool :=
  match s with
  | String a _ => bool_decide (a = c)
  | EmptyString => false
  end.

(** [c in s] for a one-character needle. *)
Fixpoint contains (c : ascii) (s : string) : bool :=
  match s with
  | EmptyString => false
  | String a s' => bool_decide (a = c) || contains c s'
  end.

(** [s.lstrip(c)] *)
Fixpoint lstrip (c : ascii) (s : string) : string :=
  match s with
  | String a s' => if bool_decide (a = c) then lstrip c s' else s
  | EmptyString => EmptyString
  end.

(** [s.rstrip(c)]: a character is dropped when it is [c] and nothing
    survives to its right. *)
Fixpoint rstrip (c : ascii) (s : string) : string :=
  match s with
  | EmptyString => EmptyString
  | String a s' =>
      match rstrip c s' with
      | EmptyString => if bool_decide (a = c) then EmptyString else String a EmptyString
      | r => String a r
      end
  end.

(** [s.strip(c)] *)
Definition strip (c : ascii) (s : string) : string := rstrip c (lstrip c s).

(** [s.split(c)]: never the empty list; the empty string splits into
    one empty segment. *)
Fixpoint split (c : ascii) (s : string) : list string :=
  match s with
  | EmptyString => [EmptyString]
  | String a s' =>
      if bool_decide (a = c) then EmptyString :: split c s'
      else match split c s' with
           | seg :: segs => String a seg :: segs
           | [] => [String a EmptyString]
           end
  end.

(** [s.replace(c, "")] *)
Fixpoint remove (c : ascii) (s : string) : string :=
  match s with
  | EmptyString => EmptyString
  | String a s' => if bool_decide (a = c) then remove c s' else String a (remove c s')
  end.

(** [s.upper()] on ASCII letters. *)
Definition upper_ascii (a : ascii) : ascii :=
  let n := nat_of_ascii a in
  if (97 <=? n)%nat && (n <=? 122)%nat then ascii_of_nat (n - 32) else a.

Fixpoint upper (s : string) : string :=
  match s with
  | EmptyString => EmptyString
  | String a s' => String (upper_ascii a) (upper s')
  end.

(** [s[:n]] *)
Fixpoint prefix (n : nat) (s : string) : string :=
  match n, s with
  | S n', String a s' => String a (prefix n' s')
  | _, _ => EmptyString
  end.

(** [parts[-1]] of a list that [split] produced. *)
Definition last_segment (parts : list string) : string := List.last parts EmptyString.

(** [s.isascii()] *)
Fixpoint isascii (s : string) : bool :=
  match s with
  | EmptyString => true
  | String a s' => (nat_of_ascii a <? 128)%nat && isascii s'
  end.

End PyStr.

(** ** Identifier resolver *)

(** [parse_f5_id]: tilde form first, then slash form, then the bare name
    in partition [Common]. *)
Definition parse_f5_id (id_raw : string) : string * string :=
  let slash_or_bare :=
    if PyStr.contains "/" id_raw then
      match PyStr.split "/" (PyStr.strip "/" id_raw) with
      | p0 :: p1 :: _ => (p0, p1)
      | _ => ("Common", id_raw)
      end
    else ("Common", id_raw) in
  if PyStr.startswith "~" id_raw then
    match PyStr.split "~" (PyStr.strip "~" id_raw) with
    | p0 :: p1 :: _ => (p0, p1)
    | _ => slash_or_bare
    end
  else slash_or_bare.

Example parse_tilde : parse_f5_id "~Common~pool1" = ("Common", "pool1").
Proof. reflexivity. Qed.

Example parse_slash : parse_f5_id "/Common/pool1" = ("Common", "pool1").
Proof. reflexivity. Qed.

Example parse_rel : parse_f5_id "Common/pool1" = ("Common", "pool1").
Proof. reflexivity. Qed.

Example parse_bare : parse_f5_id "pool1" = ("Common", "pool1").
Proof. reflexivity. Qed.

Example parse_three : parse_f5_id "/A/B/C" = ("A", "B").
Proof. reflexivity. Qed.

Example parse_empty_partition : parse_f5_id "~~pool1" = ("Common", "~~pool1").
Proof. reflexivity. Qed.

(** ** Request bodies: parsed JSON values *)

(** What [json.loads] returns.  A dict is the list of its items in
    iteration order (the keys of a dict are pairwise distinct).  Numbers
    are the integers; floating-point numbers are outside the model. *)
Inductive json : Type :=
  | JNull
  | JBool (b : bool)
  | JNum (n : Z)
  | JStr (s : string)
  | JArr (l : list json)
  | JObj (items : list (string * json)).

Module Py.

(** Truth value of an object, as tested by [if x], [not x], [x or y]. *)
Definition truthy (v : json) : bool :=
  match v with
  | JNull => false
  | JBool b => b
  | JNum n => negb (n =? 0)
  | JStr s => negb (bool_decide (s = ""))
  | JArr l => match l with [] => false | _ => true end
  | JObj items => match items with [] => false | _ => true end
  end.

(** [a or b] *)
Definition or (a b : json) : json := if truthy a then a else b.

(** [k in d] *)
Fixpoint mem (k : string) (d : list (string * json)) : bool :=
  match d with
  | [] => false
  | (k', _) :: d' => bool_decide (k' = k) || mem k d'
  end.

(** [d.get(k, default)] *)
Fixpoint get_default (k : string) (default : json) (d : list (string * json)) : json :=
  match d with
  | [] => default
  | (k', v) :: d' => if bool_decide (k' = k) then v else get_default k default d'
  end.

(** [d.get(k)] *)
Definition get (k : string) (d : list (string * json)) : json := get_default k JNull d.

(** [x == s] for a string [s]: only an equal string compares equal. *)
Definition eq_str (x : json) (s : string) : bool :=
  match x with
  | JStr t => bool_decide (t = s)
  | _ => false
  end.

End Py.

(** Keys of the in-memory dictionaries.  Python hashes [None], booleans,
    integers and strings; [True] and [1] (and [False] and [0]) are the
    same key; lists and dicts are unhashable. *)
Inductive pykey : Type :=
  | KNone
  | KInt (n : Z)
  | KStr (s : string).

#[global] Instance pykey_eq_dec : EqDecision pykey.
Proof. solve_decision. Defined.

#[global] Instance pykey_countable : Countable pykey.
Proof.
  refine (inj_countable'
    (λ k, match k with
          | KNone => inl ()
          | KInt n => inr (inl n)
          | KStr s => inr (inr s)
          end)
    (λ x, match x with
          | inl _ => KNone
          | inr (inl n) => KInt n
          | inr (inr s) => KStr s
          end) _).
  by intros [].
Defined.

(** [hash(v)] succeeds, giving the key [v] stands for, or raises
    [TypeError]. *)
Definition hash_key (v : json) : option pykey :=
  match v with
  | JNull => Some KNone
  | JBool b => Some (KInt (if b then 1 else 0))
  | JNum n => Some (KInt n)
  | JStr s => Some (KStr s)
  | JArr _ | JObj _ => None
  end.

(** [str(k)] inside an f-string, for a value that hashed to [k]. *)
Definition key_str (v : json) : string :=
  match v with
  | JNull => "None"
  | JBool true => "True"
  | JBool false => "False"
  | JNum n => pretty n
  | JStr s => s
  | JArr _ | JObj _ => ""
  end.

Example key_str_num : key_str (JNum (-42)) = "-42".
Proof. vm_compute. reflexivity. Qed.

(** ** Outcomes and the in-memory store *)

(** A handler returns a value or raises.  [HTTPException] carries the
    status code and the detail string; any other exception ([TypeError],
    [AttributeError]) reaches the global handler, which answers 500. *)
Inductive error : Type :=
  | HTTPException (status_code : Z) (detail : string)
  | Unhandled.

Inductive outcome (A : Type) : Type :=
  | Return (a : A)
  | Raise (e : error).
Arguments Return {A} a.
Arguments Raise {A} e.

Definition status {A} (o : outcome A) : Z :=
  match o with
  | Return _ => 200
  | Raise (HTTPException c _) => c
  | Raise Unhandled => 500
  end.

(** A stored token: the dict [{"username", "expiration", "created"}].
    [login] stores a username only after it compared equal to the
    configured one, so it is a string. *)
Record token_info : Type := TokenInfo {
  username : string;
  expiration : Z;
  created : Z
}.

Abbreviation record := (gmap string json) (only parsing).
Abbreviation key := (pykey * pykey)%type (only parsing).

(** The four module-level dictionaries. *)
Record store : Type := Store {
  POOLS : gmap (pykey * pykey) (gmap string json);
  POOL_MEMBERS : gmap (pykey * pykey) (gmap pykey (gmap string json));
  VIRTUALS : gmap (pykey * pykey) (gmap string json);
  ACTIVE_TOKENS : gmap string token_info
}.

Definition empty_store : store := Store ∅ ∅ ∅ ∅.

Definition with_POOLS (f : gmap key record → gmap key record) (σ : store) : store :=
  Store (f (POOLS σ)) (POOL_MEMBERS σ) (VIRTUALS σ) (ACTIVE_TOKENS σ).

Definition with_POOL_MEMBERS
    (f : gmap key (gmap pykey record) → gmap key (gmap pykey record)) (σ : store) : store :=
  Store (POOLS σ) (f (POOL_MEMBERS σ)) (VIRTUALS σ) (ACTIVE_TOKENS σ).

Definition with_VIRTUALS (f : gmap key record → gmap key record) (σ : store) : store :=
  Store (POOLS σ) (POOL_MEMBERS σ) (f (VIRTUALS σ)) (ACTIVE_TOKENS σ).

Definition with_ACTIVE_TOKENS
    (f : gmap string token_info → gmap string token_info) (σ : store) : store :=
  Store (POOLS σ) (POOL_MEMBERS σ) (VIRTUALS σ) (f (ACTIVE_TOKENS σ)).

(** [d.setdefault(k, v)] on a store dictionary: insert only when absent. *)
Definition setdefault `{Countable K} {V} (k : K) (v : V) (d : gmap K V) : gmap K V :=
  match d !! k with
  | Some _ => d
  | None => <[k := v]> d
  end.

(** The resource key a path identifier resolves to. *)
Definition key_of_id (resource_id : string) : pykey * pykey :=
  let '(partition, name) := parse_f5_id resource_id in (KStr partition, KStr name).

(** ** Authentication gate *)

(** Lifetime of a token in microseconds: [1200 * 1000000]. *)
Definition TOKEN_LIFETIME_MICROS : Z := 1200 * 1000000.

(** What [login] reads from its environment: the two [uuid.uuid4()]
    values as [str] renders them, and the clock, as [isoformat()] renders
    it and as [int(timestamp() * 1000000)]. *)
Record login_env : Type := LoginEnv {
  uuid4_token : string;
  uuid4_user : string;
  utcnow_iso : string;
  utcnow_micros : Z
}.

(** [str(uuid.uuid4()).replace('-', '').upper()[:26]] *)
Definition token_of_uuid (u : string) : string :=
  PyStr.prefix 26 (PyStr.upper (PyStr.remove "-" u)).

Example token_of_uuid_ex :
  token_of_uuid "0f8fad5b-d9cb-469f-a165-70867728950e" = "0F8FAD5BD9CB469FA165708677".
Proof. reflexivity. Qed.

Section Gate.

(** The configured credential pair ([F5_USERNAME], [F5_PASSWORD]). *)
Variables DEFAULT_USERNAME DEFAULT_PASSWORD : string.

(** [authenticate_user]: [secrets.compare_digest] raises [TypeError] on
    a string that is not ASCII. *)
Definition authenticate_user (cred_username cred_password : string) : outcome json :=
  if negb (PyStr.isascii cred_username && PyStr.isascii DEFAULT_USERNAME) then Raise Unhandled
  else if negb (PyStr.isascii cred_password && PyStr.isascii DEFAULT_PASSWORD) then Raise Unhandled
  else if negb (bool_decide (cred_username = DEFAULT_USERNAME)
                && bool_decide (cred_password = DEFAULT_PASSWORD))
  then Raise (HTTPException 401 "Invalid credentials")
  else Return (JStr cred_username).

(** [authenticate_user_or_token].  [auth_token] is the value of the
    [X-F5-Auth-Token] header, if the request has one; [current_micros]
    is the clock read when a stored token is checked. *)
Definition authenticate_user_or_token
    (auth_token : option string) (cred_username cred_password : string)
    (current_micros : Z) (σ : store) : outcome json * store :=
  match auth_token with
  | Some tok =>
      if bool_decide (tok = "") then (authenticate_user cred_username cred_password, σ)
      else
        match ACTIVE_TOKENS σ !! tok with
        | Some info =>
            if expiration info <? current_micros
            then (Raise (HTTPException 401 "Token expired"),
                  with_ACTIVE_TOKENS (delete tok) σ)
            else (Return (JStr (username info)), σ)
        | None => (Raise (HTTPException 401 "Invalid token"), σ)
        end
  | None => (authenticate_user cred_username cred_password, σ)
  end.

(** [login] *)
Definition login (env : login_env) (body_json : json) (σ : store) : outcome json * store :=
  if negb (Py.truthy body_json) then (Raise (HTTPException 400 "empty body"), σ)
  else
    match body_json with
    | JObj body =>
        let username := Py.get "username" body in
        let password := Py.get "password" body in
        let login_provider := Py.get_default "loginProviderName" (JStr "tmos") body in
        if Py.eq_str username DEFAULT_USERNAME && Py.eq_str password DEFAULT_PASSWORD then
          let token_uuid := token_of_uuid (uuid4_token env) in
          let current_micros := utcnow_micros env in
          let expiration_micros := current_micros + TOKEN_LIFETIME_MICROS in
          let response := JObj [
            ("username", username);
            ("loginReference", JObj [
              ("link", JStr "https://localhost/mgmt/cm/system/authn/providers/tmos/login")]);
            ("loginProviderName", login_provider);
            ("token", JObj [
              ("token", JStr token_uuid);
              ("name", JStr token_uuid);
              ("userName", username);
              ("authProviderName", login_provider);
              ("user", JObj [
                ("link", JStr ("https://localhost/mgmt/cm/system/authn/providers/tmos/users/"
                               +:+ uuid4_user env))]);
              ("timeout", JNum 1200);
              ("startTime", JStr (utcnow_iso env +:+ "Z"));
              ("address", JStr "127.0.0.1");
              ("partition", JStr "[All]");
              ("generation", JNum 1);
              ("lastUpdateMicros", JNum current_micros);
              ("expirationMicros", JNum expiration_micros);
              ("kind", JStr "shared:authz:tokens:authtokenitemstate");
              ("selfLink", JStr ("https://localhost/mgmt/shared/authz/tokens/" +:+ token_uuid))]);
            ("generation", JNum 0);
            ("lastUpdateMicros", JNum 0)] in
          (Return response,
           with_ACTIVE_TOKENS
             (insert token_uuid
                (TokenInfo DEFAULT_USERNAME expiration_micros current_micros)) σ)
        else (Raise (HTTPException 401 "Authentication failed"), σ)
    | _ => (Raise Unhandled, σ)
    end.

End Gate.

(** [get_token_info] *)
Definition get_token_info (token_id : string) (current_micros : Z) (σ : store)
    : outcome json * store :=
  match ACTIVE_TOKENS σ !! token_id with
  | Some info =>
      if expiration info <? current_micros
      then (Raise (HTTPException 404 "Token not found or expired"),
            with_ACTIVE_TOKENS (delete token_id) σ)
      else
        (Return (JObj [
           ("token", JStr token_id);
           ("name", JStr token_id);
           ("userName", JStr (username info));
           ("authProviderName", JStr "tmos");
           ("user", JObj [
             ("link", JStr ("https://localhost/mgmt/cm/system/authn/providers/tmos/users/"
                            +:+ username info))]);
           ("timeout", JNum 1200);
           ("address", JStr "127.0.0.1");
           ("partition", JStr "[All]");
           ("generation", JNum 1);
           ("lastUpdateMicros", JNum (created info));
           ("expirationMicros", JNum (expiration info));
           ("kind", JStr "shared:authz:tokens:authtokenitemstate");
           ("selfLink", JStr ("https://localhost/mgmt/shared/authz/tokens/" +:+ token_id))]),
         σ)
  | None => (Raise (HTTPException 404 "Token not found"), σ)
  end.

(** ** Resource store: pools *)

(** The body of a PUT or PATCH as the update loops read it:
    [(body_json or {}).items()].  A truthy body that is not a dict has no
    [items] and the handler dies with [AttributeError]. *)
Definition patch_items (body_json : json) : option (list (string * json)) :=
  match Py.or body_json (JObj []) with
  | JObj items => Some items
  | _ => None
  end.

(** The canonical field an update of a pool writes for patch field [k]. *)
Definition canonical (k : string) : string :=
  if bool_decide (k = "loadBalancingMode") || bool_decide (k = "lb_method") then "loadBalancingMode"
  else if bool_decide (k = "minUpMembers") || bool_decide (k = "min_up_members") then "minUpMembers"
  else if bool_decide (k = "monitor") || bool_decide (k = "monitor_type") then "monitor"
  else k.

(** The loop of [update_pool]. *)
Definition merge_pool (pool : gmap string json) (items : list (string * json)) : gmap string json :=
  foldl (λ pool kv, <[canonical kv.1 := kv.2]> pool) pool items.

(** The loop of [update_pool_member] and of [update_virtual]. *)
Definition merge (rec : gmap string json) (items : list (string * json)) : gmap string json :=
  foldl (λ rec kv, <[kv.1 := kv.2]> rec) rec items.

(** The name [create_pool] derives; [None] when [fullPath] is consulted
    and is not a string ([AttributeError] on [strip]). *)
Definition pool_name (body : list (string * json)) : option json :=
  let name := Py.or (Py.or (Py.get "name" body) (Py.get "fullPath" body)) (Py.get "partition" body) in
  if Py.mem "name" body then Some (Py.get "name" body)
  else if Py.mem "fullPath" body then
    match Py.get "fullPath" body with
    | JStr fp =>
        let parts := PyStr.split "/" (PyStr.strip "/" fp) in
        Some (JStr (PyStr.last_segment parts))
    | _ => None
    end
  else Some name.

(** The partition of [create_pool] and of [create_virtual]. *)
Definition body_partition (body : list (string * json)) : json :=
  Py.or (Py.or (Py.get "tmPartition" body) (Py.get "partition" body)) (JStr "Common").

(** [create_pool].  The two links are formatted before the key is hashed
    by [POOLS[key] = pool]; formatting cannot fail and its result is lost
    when hashing raises, so the model hashes first. *)
Definition create_pool (body_json : json) (σ : store) : outcome (gmap string json) * store :=
  if negb (Py.truthy body_json) then (Raise (HTTPException 400 "empty body"), σ)
  else
    match body_json with
    | JObj body =>
        match pool_name body with
        | None => (Raise Unhandled, σ)
        | Some name =>
            if negb (Py.truthy name) then (Raise (HTTPException 400 "missing name"), σ)
            else
              let partition := body_partition body in
              match hash_key partition, hash_key name with
              | Some kp, Some kn =>
                  let key := (kp, kn) in
                  let path := "/mgmt/tm/ltm/pool/~" +:+ key_str partition +:+ "~" +:+ key_str name in
                  let pool : gmap string json := list_to_map [
                    ("name", name);
                    ("tmPartition", partition);
                    ("description", Py.get_default "description" (JStr "") body);
                    ("loadBalancingMode",
                       Py.get_default "loadBalancingMode"
                         (Py.get_default "lb_method" (JStr "round-robin") body) body);
                    ("minUpMembers",
                       Py.get_default "minUpMembers"
                         (Py.get_default "min_up_members" (JNum 0) body) body);
                    ("minUpMembersAction",
                       Py.get_default "minUpMembersAction"
                         (Py.get_default "min_up_members_action" (JStr "failover") body) body);
                    ("minUpMembersChecking",
                       Py.get_default "minUpMembersChecking"
                         (Py.get_default "min_up_members_checking" (JStr "disabled") body) body);
                    ("monitor",
                       Py.or (Py.or (Py.get "monitor" body) (Py.get "monitor_type" body))
                             (Py.get_default "monitor_type" (JStr "none") body));
                    ("membersReference", JObj [("link", JStr (path +:+ "/members"))]);
                    ("selfLink", JStr path)] in
                  (Return pool,
                   with_POOL_MEMBERS (setdefault key ∅) (with_POOLS (insert key pool) σ))
              | _, _ => (Raise Unhandled, σ)
              end
        end
    | _ => (Raise Unhandled, σ)
    end.

(** [get_pool] *)
Definition get_pool (resource_id : string) (σ : store) : outcome (gmap string json) * store :=
  match POOLS σ !! key_of_id resource_id with
  | None => (Raise (HTTPException 404 "pool not found"), σ)
  | Some pool => (Return pool, σ)
  end.

(** [update_pool]: the pool dict is changed in place, so the store sees
    the merged record under the same key. *)
Definition update_pool (resource_id : string) (body_json : json) (σ : store)
    : outcome (gmap string json) * store :=
  let key := key_of_id resource_id in
  match POOLS σ !! key with
  | None => (Raise (HTTPException 404 "pool not found"), σ)
  | Some pool =>
      match patch_items body_json with
      | None => (Raise Unhandled, σ)
      | Some items =>
          let pool' := merge_pool pool items in
          (Return pool', with_POOLS (insert key pool') σ)
      end
  end.

Definition deleted : json := JObj [("message", JStr "deleted")].

(** [delete_pool] *)
Definition delete_pool (resource_id : string) (σ : store) : outcome json * store :=
  let key := key_of_id resource_id in
  match POOLS σ !! key with
  | Some _ => (Return deleted, with_POOL_MEMBERS (delete key) (with_POOLS (delete key) σ))
  | None => (Raise (HTTPException 404 "pool not found"), σ)
  end.

(** ** Resource store: pool members *)

(** The answer of [list_pool_members]: [{"items": ..., "selfLink": ...}].
    The order of [items] is the order of the member dict, which the model
    does not fix. *)
Record member_list : Type := MemberList {
  items : list (gmap string json);
  selfLink : string
}.

(** [list_pool_members] *)
Definition list_pool_members (resource_id : string) (σ : store) : outcome member_list * store :=
  let '(partition, poolname) := parse_f5_id resource_id in
  let key := (KStr partition, KStr poolname) in
  match POOLS σ !! key with
  | None => (Raise (HTTPException 404 "pool not found"), σ)
  | Some _ =>
      let members := default ∅ (POOL_MEMBERS σ !! key) in
      (Return (MemberList (map_to_list members).*2
                 ("/mgmt/tm/ltm/pool/~" +:+ partition +:+ "~" +:+ poolname +:+ "/members")),
       σ)
  end.

Section Members.

(** [str(v)] of a list or of a dict, which Python renders through
    [repr]; only the default member name ["{pool}:{port}"] can meet
    one. *)
Variable repr_container : json → string.

(** [str(v)] inside an f-string. *)
Definition py_str (v : json) : string :=
  match v with
  | JArr _ | JObj _ => repr_container v
  | _ => key_str v
  end.

(** [create_pool_member].  [setdefault] runs before the member name is
    hashed by [members[member_name] = member]. *)
Definition create_pool_member (resource_id : string) (body_json : json) (σ : store)
    : outcome (gmap string json) * store :=
  let '(partition, poolname) := parse_f5_id resource_id in
  let key := (KStr partition, KStr poolname) in
  match POOLS σ !! key with
  | None => (Raise (HTTPException 404 "pool not found"), σ)
  | Some _ =>
      if negb (Py.truthy body_json) then (Raise (HTTPException 400 "empty body"), σ)
      else
        match body_json with
        | JObj body =>
            let member_name :=
              Py.or (Py.or (Py.get "name" body) (Py.get "address" body))
                    (JStr (poolname +:+ ":" +:+ py_str (Py.get_default "port" (JStr "0") body))) in
            let σ1 := with_POOL_MEMBERS (setdefault key ∅) σ in
            let members := default ∅ (POOL_MEMBERS σ1 !! key) in
            let member : gmap string json := list_to_map [
              ("name", member_name);
              ("address", Py.get "address" body);
              ("port", Py.get "port" body);
              ("description", Py.get_default "description" (JStr "") body);
              ("session", Py.get_default "session" (JStr "user-enabled") body);
              ("ratio", Py.get_default "ratio" (JNum 1) body);
              ("state", Py.get_default "state" (JStr "user-up") body);
              ("selfLink",
                 JStr ("/mgmt/tm/ltm/pool/~" +:+ partition +:+ "~" +:+ poolname
                       +:+ "/members/~" +:+ partition +:+ "~" +:+ py_str member_name))] in
            match hash_key member_name with
            | Some mk =>
                (Return member,
                 with_POOL_MEMBERS (insert key (<[mk := member]> members)) σ1)
            | None => (Raise Unhandled, σ1)
            end
        | _ => (Raise Unhandled, σ)
        end
  end.

End Members.

(** [a or b] on the results of two [members.get]: a missing member is
    [None], and a dict is true when it has a field. *)
Definition record_or (a b : option (gmap string json)) : option (gmap string json) :=
  match a with
  | Some r => if bool_decide (r = ∅) then b else a
  | None => b
  end.

(** [not mm] *)
Definition record_falsy (mm : option (gmap string json)) : bool :=
  match mm with
  | Some r => bool_decide (r = ∅)
  | None => true
  end.

(** [get_pool_member] *)
Definition get_pool_member (resource_id member_id : string) (σ : store)
    : outcome (gmap string json) * store :=
  let key := key_of_id resource_id in
  let '(_, mname) := parse_f5_id member_id in
  match POOLS σ !! key with
  | None => (Raise (HTTPException 404 "pool not found"), σ)
  | Some _ =>
      let members := default ∅ (POOL_MEMBERS σ !! key) in
      let mm := record_or (members !! KStr mname) (members !! KStr member_id) in
      if record_falsy mm then (Raise (HTTPException 404 "member not found"), σ)
      else (Return (default ∅ mm), σ)
  end.

(** [update_pool_member]: the member dict is changed in place. *)
Definition update_pool_member (resource_id member_id : string) (body_json : json) (σ : store)
    : outcome (gmap string json) * store :=
  let key := key_of_id resource_id in
  let '(_, mname) := parse_f5_id member_id in
  let members := default ∅ (POOL_MEMBERS σ !! key) in
  match members !! KStr mname with
  | None => (Raise (HTTPException 404 "member not found"), σ)
  | Some member =>
      match patch_items body_json with
      | None => (Raise Unhandled, σ)
      | Some items =>
          let member' := merge member items in
          (Return member', with_POOL_MEMBERS (insert key (<[KStr mname := member']> members)) σ)
      end
  end.

(** [delete_pool_member] *)
Definition delete_pool_member (resource_id member_id : string) (σ : store)
    : outcome json * store :=
  let key := key_of_id resource_id in
  let '(_, mname) := parse_f5_id member_id in
  let members := default ∅ (POOL_MEMBERS σ !! key) in
  match members !! KStr mname with
  | Some _ => (Return deleted, with_POOL_MEMBERS (insert key (delete (KStr mname) members)) σ)
  | None => (Raise (HTTPException 404 "member not found"), σ)
  end.

(** ** Resource store: virtual servers *)

(** The name [create_virtual] derives:
    [get("name") or (get("fullPath") and fullPath.split("/")[-1])]. *)
Definition virtual_name (body : list (string * json)) : option json :=
  let name := Py.get "name" body in
  if Py.truthy name then Some name
  else
    let fp := Py.get "fullPath" body in
    if negb (Py.truthy fp) then Some fp
    else match fp with
         | JStr s => Some (JStr (PyStr.last_segment (PyStr.split "/" s)))
         | _ => None
         end.

(** [create_virtual] *)
Definition create_virtual (body_json : json) (σ : store) : outcome (gmap string json) * store :=
  if negb (Py.truthy body_json) then (Raise (HTTPException 400 "empty body"), σ)
  else
    match body_json with
    | JObj body =>
        match virtual_name body with
        | None => (Raise Unhandled, σ)
        | Some name =>
            if negb (Py.truthy name) then (Raise (HTTPException 400 "missing name"), σ)
            else
              let partition := body_partition body in
              match hash_key partition, hash_key name with
              | Some kp, Some kn =>
                  let virtual : gmap string json := list_to_map [
                    ("name", name);
                    ("tmPartition", partition);
                    ("description", Py.get_default "description" (JStr "") body);
                    ("destination", Py.get "destination" body);
                    ("pool", Py.get "pool" body);
                    ("enabled", Py.get_default "enabled" (JBool true) body);
                    ("connectionLimit", Py.get_default "connectionLimit" (JNum 0) body);
                    ("selfLink",
                       JStr ("/mgmt/tm/ltm/virtual/~" +:+ key_str partition
                             +:+ "~" +:+ key_str name))] in
                  (Return virtual, with_VIRTUALS (insert (kp, kn) virtual) σ)
              | _, _ => (Raise Unhandled, σ)
              end
        end
    | _ => (Raise Unhandled, σ)
    end.

(** [get_virtual] *)
Definition get_virtual (resource_id : string) (σ : store) : outcome (gmap string json) * store :=
  match VIRTUALS σ !! key_of_id resource_id with
  | None => (Raise (HTTPException 404 "virtual not found"), σ)
  | Some v => (Return v, σ)
  end.

(** [update_virtual] *)
Definition update_virtual (resource_id : string) (body_json : json) (σ : store)
    : outcome (gmap string json) * store :=
  let key := key_of_id resource_id in
  match VIRTUALS σ !! key with
  | None => (Raise (HTTPException 404 "virtual not found"), σ)
  | Some v =>
      match patch_items body_json with
      | None => (Raise Unhandled, σ)
      | Some items =>
          let v' := merge v items in
          (Return v', with_VIRTUALS (insert key v') σ)
      end
  end.

(** [delete_virtual] *)
Definition delete_virtual (resource_id : string) (σ : store) : outcome json * store :=
  let key := key_of_id resource_id in
  match VIRTUALS σ !! key with
  | Some _ => (Return deleted, with_VIRTUALS (delete key) σ)
  | None => (Raise (HTTPException 404 "virtual not found"), σ)
  end.

(** * Properties *)

(** ** Facts about the string primitives *)

Module PyStrFacts.
Import PyStr.

Lemma contains_app c s t : contains c (s +:+ t) = contains c s || contains c t.
Proof.
  induction s as [|a s IH]; simpl; [done|].
  rewrite IH. by rewrite orb_assoc.
Qed.

Lemma startswith_contains c s : startswith c s = true → contains c s = true.
Proof. destruct s as [|a s]; simpl; [done|]. by intros ->. Qed.

Lemma lstrip_id c s : startswith c s = false → lstrip c s = s.
Proof. destruct s as [|a s]; simpl; [done|]. by intros ->. Qed.

Lemma rstrip_id c s : contains c s = false → rstrip c s = s.
Proof.
  induction s as [|a s IH]; simpl; [done|].
  intros [Ha Hs]%orb_false_elim. rewrite (IH Hs), Ha. by destruct s.
Qed.

Lemma app_cons a s t : String a s +:+ t = String a (s +:+ t).
Proof. reflexivity. Qed.

Lemma rstrip_app c s t : rstrip c t ≠ "" → rstrip c (s +:+ t) = s +:+ rstrip c t.
Proof.
  intros Ht. induction s as [|a s IH]; [done|].
  rewrite !app_cons. simpl. rewrite IH.
  destruct (s +:+ rstrip c t) eqn:E; [|done].
  destruct s; [done | discriminate].
Qed.

Lemma split_id c s : contains c s = false → split c s = [s].
Proof.
  induction s as [|a s IH]; simpl; [done|].
  intros [Ha Hs]%orb_false_elim. by rewrite Ha, (IH Hs).
Qed.

Lemma split_app c s t :
  contains c s = false → split c (s +:+ String c t) = s :: split c t.
Proof.
  induction s as [|a s IH]; simpl.
  - intros _. by rewrite bool_decide_eq_true_2.
  - intros [Ha Hs]%orb_false_elim. by rewrite Ha, (IH Hs).
Qed.

Lemma split_length c s : (1 ≤ length (split c s))%nat.
Proof.
  induction s as [|a s IH]; simpl; [lia|].
  case_bool_decide; simpl; [lia|]. destruct (split c s); simpl; lia.
Qed.

Lemma split_contains c s : (2 ≤ length (split c s))%nat → contains c s = true.
Proof.
  induction s as [|a s IH]; simpl; [lia|].
  case_bool_decide; simpl; [done|].
  destruct (split c s) eqn:E; simpl in *; [lia|]. exact IH.
Qed.

Lemma contains_lstrip c s : contains c (lstrip c s) = true → contains c s = true.
Proof.
  induction s as [|a s IH]; simpl; [done|].
  case_bool_decide; simpl; [done|]. by rewrite bool_decide_eq_false_2.
Qed.

Lemma contains_rstrip c s : contains c (rstrip c s) = true → contains c s = true.
Proof.
  induction s as [|a s IH]; simpl; [done|].
  destruct (rstrip c s) eqn:E.
  - destruct (bool_decide (a = c)) eqn:Ha; simpl; [done|]. by rewrite Ha.
  - simpl. intros [->| H]%orb_true_iff; [done|]. rewrite IH; [apply orb_true_r | done].
Qed.

Lemma contains_strip c s : contains c (strip c s) = true → contains c s = true.
Proof. intros H. by apply contains_lstrip, contains_rstrip. Qed.

(** A string that does not contain [c] and is not empty does not start
    with [c] and survives [strip c] whole. *)
Lemma startswith_free c s : contains c s = false → startswith c s = false.
Proof. destruct s as [|a s]; simpl; [done|]. by intros [-> _]%orb_false_elim. Qed.

Lemma startswith_app c s t : s ≠ "" → startswith c (s +:+ t) = startswith c s.
Proof. by destruct s. Qed.

(** [strip] of [P c N] when neither [P] nor [N] contains [c] and neither
    is empty: nothing is trimmed. *)
Lemma strip_joined c P N :
  P ≠ "" → N ≠ "" → contains c P = false → contains c N = false →
  strip c (P +:+ String c N) = P +:+ String c N.
Proof.
  intros HP HN HcP HcN. unfold strip.
  rewrite lstrip_id by (rewrite startswith_app by done; by apply startswith_free).
  assert (rstrip c (String c N) = String c N) as Hr.
  { simpl. rewrite (rstrip_id _ _ HcN). by destruct N. }
  rewrite rstrip_app; rewrite Hr; done.
Qed.

End PyStrFacts.

(** ** Identifier resolver *)

(** The tilde rule of [parse_f5_id] fires: the identifier starts with a
    tilde and has two tilde-separated segments once trimmed. *)
Definition tilde_applies (id_raw : string) : bool :=
  PyStr.startswith "~" id_raw
  && bool_decide (2 ≤ length (PyStr.split "~" (PyStr.strip "~" id_raw)))%nat.

Lemma parse_f5_id_tilde id_raw p0 p1 rest :
  PyStr.startswith "~" id_raw = true →
  PyStr.split "~" (PyStr.strip "~" id_raw) = p0 :: p1 :: rest →
  parse_f5_id id_raw = (p0, p1).
Proof. intros Hs Hp. unfold parse_f5_id. by rewrite Hs, Hp. Qed.

Lemma parse_f5_id_not_tilde id_raw :
  tilde_applies id_raw = false →
  parse_f5_id id_raw =
    if PyStr.contains "/" id_raw then
      match PyStr.split "/" (PyStr.strip "/" id_raw) with
      | p0 :: p1 :: _ => (p0, p1)
      | _ => ("Common", id_raw)
      end
    else ("Common", id_raw).
Proof.
  unfold tilde_applies, parse_f5_id. intros H.
  destruct (PyStr.startswith "~" id_raw); [|done]. simpl in H.
  apply bool_decide_eq_false in H.
  destruct (PyStr.split "~" (PyStr.strip "~" id_raw)) as [|p0 [|p1 rest]]; simpl in H; [done..|lia].
Qed.

Lemma parse_f5_id_slash id_raw p0 p1 rest :
  tilde_applies id_raw = false →
  PyStr.split "/" (PyStr.strip "/" id_raw) = p0 :: p1 :: rest →
  parse_f5_id id_raw = (p0, p1).
Proof.
  intros Ht Hp. rewrite (parse_f5_id_not_tilde _ Ht), Hp.
  rewrite (PyStrFacts.contains_strip "/" id_raw); [done|].
  apply PyStrFacts.split_contains. rewrite Hp. simpl. lia.
Qed.

Lemma parse_f5_id_bare id_raw :
  PyStr.contains "~" id_raw = false → PyStr.contains "/" id_raw = false →
  parse_f5_id id_raw = ("Common", id_raw).
Proof.
  intros Ht Hs. unfold parse_f5_id.
  by rewrite (PyStrFacts.startswith_free _ _ Ht), Hs.
Qed.

Lemma tilde_applies_free id_raw : PyStr.startswith "~" id_raw = false → tilde_applies id_raw = false.
Proof. unfold tilde_applies. by intros ->. Qed.

(** C3, as stated, fails for an empty partition: [~~pool1] is not
    resolved to the pair of the empty partition and [pool1]; trimming
    removes both tildes and the identifier falls through to the bare
    default. *)
Lemma parse_f5_id_empty_partition :
  PyStr.contains "~" "" = false ∧ PyStr.contains "/" "" = false ∧
  PyStr.contains "~" "pool1" = false ∧ PyStr.contains "/" "pool1" = false ∧
  parse_f5_id ("~" +:+ "" +:+ "~" +:+ "pool1") ≠ ("", "pool1") ∧
  parse_f5_id ("~" +:+ "" +:+ "~" +:+ "pool1") = ("Common", "~~pool1").
Proof. repeat split; done. Qed.

(** C3 (amended): for a non-empty partition [P] and a non-empty name [N]
    without tildes, [~P~N] resolves to [(P, N)], whether or not a slash
    occurs in it (the tilde rule comes first); when [P] and [N] have no
    slash either, [/P/N] and [P/N] resolve to [(P, N)] (the slash rule
    comes before the bare default); a name [N] with neither separator
    resolves to [(Common, N)]. *)
Theorem parse_f5_id_encodings (P N : string) :
  PyStr.contains "~" P = false → PyStr.contains "~" N = false →
  (P ≠ "" → N ≠ "" → parse_f5_id ("~" +:+ P +:+ "~" +:+ N) = (P, N)) ∧
  (P ≠ "" → N ≠ "" → PyStr.contains "/" P = false → PyStr.contains "/" N = false →
     parse_f5_id ("/" +:+ P +:+ "/" +:+ N) = (P, N) ∧
     parse_f5_id (P +:+ "/" +:+ N) = (P, N)) ∧
  (PyStr.contains "/" N = false → parse_f5_id N = ("Common", N)).
Proof.
  intros HtP HtN. split_and!.
  - intros HP HN. apply parse_f5_id_tilde with (rest := []); [done|].
    change ("~" +:+ P +:+ "~" +:+ N) with (String "~" (P +:+ String "~" N)).
    unfold PyStr.strip. change (PyStr.lstrip "~" (String "~" ?s)) with (PyStr.lstrip "~" s).
    fold (PyStr.strip "~" (P +:+ String "~" N)).
    rewrite PyStrFacts.strip_joined by done.
    by rewrite PyStrFacts.split_app, PyStrFacts.split_id.
  - intros HP HN HsP HsN.
    assert (PyStr.split "/" (PyStr.strip "/" (P +:+ String "/" N)) = [P; N]) as Hsplit.
    { rewrite PyStrFacts.strip_joined by done.
      by rewrite PyStrFacts.split_app, PyStrFacts.split_id. }
    split.
    + apply parse_f5_id_slash with (rest := []); [done|].
      change ("/" +:+ P +:+ "/" +:+ N) with (String "/" (P +:+ String "/" N)).
      unfold PyStr.strip. change (PyStr.lstrip "/" (String "/" ?s)) with (PyStr.lstrip "/" s).
      exact Hsplit.
    + apply parse_f5_id_slash with (rest := []); [|exact Hsplit].
      apply tilde_applies_free.
      change (P +:+ "/" +:+ N) with (P +:+ String "/" N).
      rewrite PyStrFacts.startswith_app by done. by apply PyStrFacts.startswith_free.
  - intros HsN. by apply parse_f5_id_bare.
Qed.

Lemma parse_f5_id_encodings_witness :
  parse_f5_id ("~" +:+ "Common" +:+ "~" +:+ "pool1") = ("Common", "pool1") ∧
  parse_f5_id ("/" +:+ "Common" +:+ "/" +:+ "pool1") = ("Common", "pool1") ∧
  parse_f5_id ("Common" +:+ "/" +:+ "pool1") = ("Common", "pool1") ∧
  parse_f5_id "pool1" = ("Common", "pool1").
Proof.
  destruct (parse_f5_id_encodings "Common" "pool1") as (Ht & Hs & Hb); [reflexivity..|].
  split; [apply Ht; discriminate|].
  destruct Hs as [Hs1 Hs2]; [discriminate | discriminate | reflexivity | reflexivity |].
  split; [exact Hs1|]. split; [exact Hs2|]. apply Hb. reflexivity.
Defined.

(** C4, as stated, fails on [/A/B/C]: the name is the second segment,
    not the last. *)
Lemma parse_f5_id_three_segments :
  tilde_applies "/A/B/C" = false ∧
  PyStr.split "/" (PyStr.strip "/" "/A/B/C") = ["A"; "B"; "C"] ∧
  parse_f5_id "/A/B/C" ≠ ("A", PyStr.last_segment ["A"; "B"; "C"]).
Proof. repeat split; done. Qed.

(** C4 (amended): when the tilde rule does not fire and the identifier,
    trimmed of slashes, splits on the slash into at least two segments,
    the resolver returns the first segment as the partition and the
    second segment as the name; with exactly two segments the second is
    the last; [/A/B/C] resolves to [(A, B)]. *)
Theorem parse_f5_id_slash_second (id_raw p0 p1 : string) (rest : list string) :
  tilde_applies id_raw = false →
  PyStr.split "/" (PyStr.strip "/" id_raw) = p0 :: p1 :: rest →
  parse_f5_id id_raw = (p0, p1) ∧
  (rest = [] → p1 = PyStr.last_segment (PyStr.split "/" (PyStr.strip "/" id_raw))) ∧
  parse_f5_id "/A/B/C" = ("A", "B").
Proof.
  intros Ht Hp. split; [by eapply parse_f5_id_slash|].
  split; [|done]. intros ->. by rewrite Hp.
Qed.

Lemma parse_f5_id_slash_second_witness :
  parse_f5_id "/A/B/C" = ("A", "B").
Proof.
  refine (proj1 (parse_f5_id_slash_second "/A/B/C" "A" "B" ["C"] _ _)); reflexivity.
Defined.

(** ** Authentication gate *)


Section GateFacts.

Variables DEFAULT_USERNAME DEFAULT_PASSWORD : string.

Lemma eq_str_true x s : Py.eq_str x s = true ↔ x = JStr s.
Proof.
  destruct x; simpl; try (split; [discriminate | congruence]).
  rewrite bool_decide_eq_true. split; congruence.
Qed.

Lemma login_ok env body σ :
  Py.get "username" body = JStr DEFAULT_USERNAME →
  Py.get "password" body = JStr DEFAULT_PASSWORD →
  ∃ resp,
    login DEFAULT_USERNAME DEFAULT_PASSWORD env (JObj body) σ =
      (Return resp,
       with_ACTIVE_TOKENS
         (insert (token_of_uuid (uuid4_token env))
            (TokenInfo DEFAULT_USERNAME
               (utcnow_micros env + TOKEN_LIFETIME_MICROS) (utcnow_micros env))) σ).
Proof.
  intros Hu Hp. unfold login.
  assert (Py.truthy (JObj body) = true) as ->.
  { destruct body; [discriminate Hu | done]. }
  simpl. rewrite Hu, Hp. simpl. rewrite !bool_decide_eq_true_2 by done. simpl.
  eexists. reflexivity.
Qed.

Lemma login_mismatch env body σ :
  body ≠ [] →
  Py.get "username" body ≠ JStr DEFAULT_USERNAME ∨
  Py.get "password" body ≠ JStr DEFAULT_PASSWORD →
  login DEFAULT_USERNAME DEFAULT_PASSWORD env (JObj body) σ
  = (Raise (HTTPException 401 "Authentication failed"), σ).
Proof.
  intros Hb Hne. unfold login.
  assert (Py.truthy (JObj body) = true) as -> by (by destruct body).
  simpl.
  destruct (Py.eq_str (Py.get "username" body) DEFAULT_USERNAME
            && Py.eq_str (Py.get "password" body) DEFAULT_PASSWORD) eqn:E; [|done].
  apply andb_true_iff in E as [Eu%eq_str_true Ep%eq_str_true]. tauto.
Qed.

Lemma login_raise_frame env body_json σ e σ' :
  login DEFAULT_USERNAME DEFAULT_PASSWORD env body_json σ = (Raise e, σ') → σ' = σ.
Proof.
  unfold login. intros H.
  repeat (simplify_eq; try done;
          match type of H with
          | context [if ?b then _ else _] => destruct b
          | context [match ?x with _ => _ end] => destruct x
          end).
Qed.

(** C1: a login whose body carries the configured username and
    password stores one token record under the issued token value, with
    expiration = creation + 1,200,000,000 microseconds, and touches no
    other token (so the store grows by exactly one record when the
    issued value is fresh); a login with a non-empty body carrying any
    other pair raises 401 "Authentication failed" and leaves the store
    as it was; and whenever login raises, the store is unchanged. *)
Theorem login_token_lifetime (env : login_env) (body : list (string * json)) (σ : store) :
  (Py.get "username" body = JStr DEFAULT_USERNAME →
   Py.get "password" body = JStr DEFAULT_PASSWORD →
   ∃ resp info,
     let tok := token_of_uuid (uuid4_token env) in
     let σ' := (login DEFAULT_USERNAME DEFAULT_PASSWORD env (JObj body) σ).2 in
     login DEFAULT_USERNAME DEFAULT_PASSWORD env (JObj body) σ
       = (Return resp, with_ACTIVE_TOKENS (insert tok info) σ) ∧
     ACTIVE_TOKENS σ' !! tok = Some info ∧
     created info = utcnow_micros env ∧
     expiration info = created info + 1200000000 ∧
     (∀ k, k ≠ tok → ACTIVE_TOKENS σ' !! k = ACTIVE_TOKENS σ !! k) ∧
     (ACTIVE_TOKENS σ !! tok = None →
      size (ACTIVE_TOKENS σ') = S (size (ACTIVE_TOKENS σ))) ∧
     POOLS σ' = POOLS σ ∧ POOL_MEMBERS σ' = POOL_MEMBERS σ ∧ VIRTUALS σ' = VIRTUALS σ) ∧
  (body ≠ [] →
   Py.get "username" body ≠ JStr DEFAULT_USERNAME ∨
   Py.get "password" body ≠ JStr DEFAULT_PASSWORD →
   login DEFAULT_USERNAME DEFAULT_PASSWORD env (JObj body) σ
   = (Raise (HTTPException 401 "Authentication failed"), σ)) ∧
  (∀ body_json e σ',
     login DEFAULT_USERNAME DEFAULT_PASSWORD env body_json σ = (Raise e, σ') → σ' = σ).
Proof.
  split_and!.
  - intros Hu Hp. destruct (login_ok env body σ Hu Hp) as [resp Hl].
    eexists resp, _. cbv zeta. rewrite Hl. simpl.
    split_and!; try done.
    + apply lookup_insert_eq.
    + intros k Hk. by apply lookup_insert_ne.
    + intros Hfresh. by apply map_size_insert_None.
  - apply login_mismatch.
  - intros body_json e σ'. apply login_raise_frame.
Qed.

(** C2: presenting a stored token whose expiration is strictly before
    the current time deletes the record and raises 401 "Token expired";
    afterwards the token is absent, every later presentation raises 401
    "Invalid token" and every later [get_token_info] raises 404 "Token
    not found", both leaving the store as it is.  [get_token_info]
    evicts an expired token in the same way.  (A header whose value is
    the empty string counts as no header; [login] never issues it.) *)
Theorem expired_token_evicted
    (σ : store) (tok : string) (info : token_info) (now : Z) (cu cp : string) :
  tok ≠ "" →
  ACTIVE_TOKENS σ !! tok = Some info →
  expiration info < now →
  let σ' := with_ACTIVE_TOKENS (delete tok) σ in
  authenticate_user_or_token DEFAULT_USERNAME DEFAULT_PASSWORD (Some tok) cu cp now σ
    = (Raise (HTTPException 401 "Token expired"), σ') ∧
  get_token_info tok now σ = (Raise (HTTPException 404 "Token not found or expired"), σ') ∧
  ACTIVE_TOKENS σ' !! tok = None ∧
  (∀ k, k ≠ tok → ACTIVE_TOKENS σ' !! k = ACTIVE_TOKENS σ !! k) ∧
  (∀ now' cu' cp',
     authenticate_user_or_token DEFAULT_USERNAME DEFAULT_PASSWORD (Some tok) cu' cp' now' σ'
     = (Raise (HTTPException 401 "Invalid token"), σ')) ∧
  (∀ now', get_token_info tok now' σ' = (Raise (HTTPException 404 "Token not found"), σ')).
Proof.
  intros Htok Hin Hexp σ'.
  assert (ACTIVE_TOKENS σ' !! tok = None) as Hgone by apply lookup_delete_eq.
  assert ((expiration info <? now) = true) as Hlt by (by apply Z.ltb_lt).
  split_and!.
  - unfold authenticate_user_or_token.
    by rewrite bool_decide_eq_false_2, Hin, Hlt.
  - unfold get_token_info. by rewrite Hin, Hlt.
  - done.
  - intros k Hk. by apply lookup_delete_ne.
  - intros now' cu' cp'. unfold authenticate_user_or_token.
    by rewrite bool_decide_eq_false_2, Hgone.
  - intros now'. unfold get_token_info. by rewrite Hgone.
Qed.

End GateFacts.

Lemma login_token_lifetime_witness :
  ∃ resp info,
    login "admin" "f5password"
      (LoginEnv "0f8fad5b-d9cb-469f-a165-70867728950e"
                "7c9e6679-7425-40de-944b-e07fc1f90ae7" "2025-01-01T00:00:00" 1735689600000000)
      (JObj [("username", JStr "admin"); ("password", JStr "f5password")]) empty_store
    = (Return resp,
       with_ACTIVE_TOKENS (insert "0F8FAD5BD9CB469FA165708677" info) empty_store) ∧
    expiration info = created info + 1200000000.
Proof.
  destruct (proj1 (login_token_lifetime "admin" "f5password"
    (LoginEnv "0f8fad5b-d9cb-469f-a165-70867728950e"
              "7c9e6679-7425-40de-944b-e07fc1f90ae7" "2025-01-01T00:00:00" 1735689600000000)
    [("username", JStr "admin"); ("password", JStr "f5password")] empty_store))
    as (resp & info & H1 & _ & _ & H4 & _); [reflexivity | reflexivity |].
  exists resp, info. split; [exact H1 | exact H4].
Defined.

(** A store holding one token that expires at time 10. *)
Definition stale_store : store := Store ∅ ∅ ∅ {["TOK" := (TokenInfo "admin" 10 0)]}.

Lemma expired_token_evicted_witness :
  authenticate_user_or_token "admin" "f5password" (Some "TOK") "" "" 11
    stale_store
  = (Raise (HTTPException 401 "Token expired"),
     with_ACTIVE_TOKENS (delete "TOK") stale_store).
Proof.
  refine (proj1 (expired_token_evicted "admin" "f5password"
    stale_store "TOK" (TokenInfo "admin" 10 0)
    11 "" "" _ _ _)).
  - discriminate.
  - reflexivity.
  - simpl. lia.
Defined.

(** ** Pools: create *)

Lemma truthy_JObj_cons body : body ≠ [] → Py.truthy (JObj body) = true.
Proof. by destruct body. Qed.

(** What a successful [create_pool] has done. *)
Lemma create_pool_return body σ pool σ' :
  create_pool (JObj body) σ = (Return pool, σ') →
  ∃ name kp kn,
    pool_name body = Some name ∧ Py.truthy name = true ∧
    hash_key (body_partition body) = Some kp ∧ hash_key name = Some kn ∧
    pool !! "name" = Some name ∧
    pool !! "tmPartition" = Some (body_partition body) ∧
    σ' = with_POOL_MEMBERS (setdefault (kp, kn) ∅) (with_POOLS (insert (kp, kn) pool) σ).
Proof.
  unfold create_pool. intros H.
  destruct (Py.truthy (JObj body)); simpl in H; [|done].
  destruct (pool_name body) as [name|]; [|done].
  destruct (Py.truthy name) eqn:Hn; simpl in H; [|done].
  destruct (hash_key (body_partition body)) as [kp|] eqn:Hp; [|done].
  destruct (hash_key name) as [kn|] eqn:Hk; [|done].
  injection H as <- <-. exists name, kp, kn. split_and!; done.
Qed.

(** When [create_pool] answers 400 on a non-empty dict. *)
Lemma create_pool_missing_name body σ :
  body ≠ [] →
  status (create_pool (JObj body) σ).1 = 400 ↔
  ∃ name, pool_name body = Some name ∧ Py.truthy name = false.
Proof.
  intros Hb. unfold create_pool. rewrite (truthy_JObj_cons _ Hb). simpl.
  destruct (pool_name body) as [name|]; simpl.
  - destruct (Py.truthy name) eqn:Hn; simpl.
    + split; [|by intros (? & [= <-] & ?); congruence].
      destruct (hash_key (body_partition body)), (hash_key name); simpl; lia.
    + split; [eauto | done].
  - split; [lia | by intros (? & ? & ?)].
Qed.

Lemma pool_name_cases body name :
  pool_name body = Some name ↔
    (Py.mem "name" body = true ∧ name = Py.get "name" body) ∨
    (Py.mem "name" body = false ∧ Py.mem "fullPath" body = true ∧
       ∃ fp, Py.get "fullPath" body = JStr fp ∧
             name = JStr (PyStr.last_segment (PyStr.split "/" (PyStr.strip "/" fp)))) ∨
    (Py.mem "name" body = false ∧ Py.mem "fullPath" body = false ∧
       name = Py.get "partition" body).
Proof.
  unfold pool_name.
  assert (∀ k, Py.mem k body = false → Py.get k body = JNull) as Hget.
  { intros k. unfold Py.get. induction body as [|[k' v] body IH]; simpl; [done|].
    case_bool_decide; simpl; [done | exact IH]. }
  destruct (Py.mem "name" body) eqn:Hn.
  { split; [intros [= <-]; by left | intros [[_ ->]|[(? & _)|(? & _)]]; done]. }
  destruct (Py.mem "fullPath" body) eqn:Hf.
  { destruct (Py.get "fullPath" body) eqn:Hfp;
      (split; [intros H; simplify_eq; try (right; left; eauto)
              | intros [[? _]|[(_ & _ & fp & ? & ->)|(_ & ? & _)]]; simplify_eq; done]). }
  rewrite (Hget _ Hn), (Hget _ Hf). unfold Py.or; simpl.
  split; [intros [= <-]; by right; right | intros [[? _]|[(_ & ? & _)|(_ & _ & ->)]]; done].
Qed.

(** C5, as stated, fails on a body with only a [partition] field: the
    partition is taken as the name and the pool is created. *)
Lemma create_pool_partition_only :
  ∃ pool σ',
    create_pool (JObj [("partition", JStr "X")]) empty_store = (Return pool, σ') ∧
    status (create_pool (JObj [("partition", JStr "X")]) empty_store).1 ≠ 400 ∧
    pool !! "name" = Some (JStr "X") ∧
    pool !! "tmPartition" = Some (JStr "X") ∧
    POOLS σ' !! (KStr "X", KStr "X") = Some pool.
Proof. do 2 eexists. split; [reflexivity|]. split_and!; [done | reflexivity..]. Qed.

(** C5 (amended): on a non-empty dict, [create_pool] answers 400 exactly
    when the derived name is absent or empty, the derived name being the
    [name] field when the body has one, else the last segment of a string
    [fullPath] when the body has one, else the [partition] field.  When
    it succeeds, the stored record carries that name, and its partition
    is the [tmPartition] field when that is given, else the [partition]
    field when that is given, else, for a body without [fullPath],
    [Common]; the record is stored under the pair of the two. *)
Theorem create_pool_name_rule (body : list (string * json)) (σ : store) :
  body ≠ [] →
  (status (create_pool (JObj body) σ).1 = 400 ↔
     (Py.mem "name" body = true ∧ Py.truthy (Py.get "name" body) = false) ∨
     (Py.mem "name" body = false ∧ Py.mem "fullPath" body = true ∧
        ∃ fp, Py.get "fullPath" body = JStr fp ∧
              PyStr.last_segment (PyStr.split "/" (PyStr.strip "/" fp)) = "") ∨
     (Py.mem "name" body = false ∧ Py.mem "fullPath" body = false ∧
        Py.truthy (Py.get "partition" body) = false)) ∧
  (∀ pool σ',
     create_pool (JObj body) σ = (Return pool, σ') →
     ∃ name partition kp kn,
       pool !! "name" = Some name ∧ pool !! "tmPartition" = Some partition ∧
       hash_key partition = Some kp ∧ hash_key name = Some kn ∧
       POOLS σ' !! (kp, kn) = Some pool ∧
       Py.truthy name = true ∧
       (Py.mem "name" body = true → name = Py.get "name" body) ∧
       (Py.mem "name" body = false → Py.mem "fullPath" body = true →
          ∃ fp, Py.get "fullPath" body = JStr fp ∧
                name = JStr (PyStr.last_segment (PyStr.split "/" (PyStr.strip "/" fp)))) ∧
       (Py.mem "name" body = false → Py.mem "fullPath" body = false →
          name = Py.get "partition" body) ∧
       (Py.truthy (Py.get "tmPartition" body) = true →
          partition = Py.get "tmPartition" body) ∧
       (Py.truthy (Py.get "tmPartition" body) = false →
        Py.truthy (Py.get "partition" body) = true →
          partition = Py.get "partition" body) ∧
       (Py.truthy (Py.get "tmPartition" body) = false →
        Py.truthy (Py.get "partition" body) = false →
        Py.mem "fullPath" body = false →
          partition = JStr "Common")).
Proof.
  intros Hb. split.
  - rewrite (create_pool_missing_name _ _ Hb). split.
    + intros (name & [H|[H|H]]%pool_name_cases & Hf).
      * left. destruct H as [? ->]. done.
      * right; left. destruct H as (? & ? & fp & ? & ->). split_and!; [done..|].
        exists fp. split; [done|]. simpl in Hf.
        by apply negb_false_iff, bool_decide_eq_true in Hf.
      * right; right. destruct H as (? & ? & ->). done.
    + intros [[Hm Hf]|[(Hn & Hm & fp & Hfp & Hl)|(Hn & Hm & Hf)]].
      * eexists. split; [apply pool_name_cases; left; done | done].
      * eexists. split; [apply pool_name_cases; right; left; eauto|].
        simpl. by rewrite Hl.
      * eexists. split; [apply pool_name_cases; right; right; done | done].
  - intros pool σ' (name & kp & kn & Hname & Ht & Hkp & Hkn & Hpn & Hpp & ->)%create_pool_return.
    exists name, (body_partition body), kp, kn. split_and!; try done.
    + simpl. apply lookup_insert_eq.
    + apply pool_name_cases in Hname as [[? ->]|[(? & ? & _)|(? & _)]]; congruence.
    + apply pool_name_cases in Hname as [[? _]|[(_ & _ & fp & ? & ->)|(_ & ? & _)]];
        [congruence | eauto | congruence].
    + apply pool_name_cases in Hname as [[? _]|[(_ & ? & _)|(_ & _ & ->)]]; congruence.
    + unfold body_partition, Py.or. intros H. rewrite H. by rewrite H.
    + unfold body_partition, Py.or. intros H1 H2. rewrite H1. by rewrite H2.
    + unfold body_partition, Py.or. intros H1 H2 _. rewrite H1. by rewrite H2.
Qed.

Lemma create_pool_name_rule_witness :
  ∃ pool σ',
    create_pool (JObj [("fullPath", JStr "/Common/pool1"); ("tmPartition", JStr "T")])
      empty_store = (Return pool, σ') ∧
    pool !! "name" = Some (JStr "pool1") ∧ pool !! "tmPartition" = Some (JStr "T") ∧
    POOLS σ' !! (KStr "T", KStr "pool1") = Some pool.
Proof.
  destruct (create_pool_name_rule
              [("fullPath", JStr "/Common/pool1"); ("tmPartition", JStr "T")] empty_store)
    as [_ H]; [discriminate|].
  do 2 eexists. split; [reflexivity|].
  edestruct H as (name & partition & kp & kn & Hn & Hp & Hkp & Hkn & Hs & _ & _ & Hf & _ & Ht & _);
    [reflexivity|].
  destruct (Hf eq_refl eq_refl) as (fp & [= <-] & ->).
  rewrite (Ht eq_refl) in *. simpl in Hkp, Hkn. simplify_eq.
  split_and!; [exact Hn | exact Hp | exact Hs].
Defined.

(** ** Pools: the member collection after a create *)

Definition body_p1 : json := JObj [("name", JStr "p1")].
Definition body_m1 : json := JObj [("name", JStr "m1"); ("address", JStr "10.0.0.1")].

(** The store after: create pool [p1], add member [m1] to it. *)
Definition store_p1_m1 : store :=
  (create_pool_member (λ _, "") "p1" body_m1 (create_pool body_p1 empty_store).2).2.

(** The record of [p1], its member collection and the record of [m1] in
    that store. *)
Definition pool_p1 : gmap string json :=
  default ∅ (POOLS store_p1_m1 !! (KStr "Common", KStr "p1")).
Definition members_p1 : gmap pykey (gmap string json) :=
  default ∅ (POOL_MEMBERS store_p1_m1 !! (KStr "Common", KStr "p1")).
Definition member_m1 : gmap string json := default ∅ (members_p1 !! KStr "m1").

(** C6, as stated, fails when the create overwrites a pool that has
    members: creating [p1] again keeps member [m1], and the member list
    right after the create returns it. *)
Lemma create_pool_keeps_members :
  ∃ pool σ' l,
    create_pool body_p1 store_p1_m1 = (Return pool, σ') ∧
    POOL_MEMBERS σ' !! (KStr "Common", KStr "p1") ≠ Some ∅ ∧
    (list_pool_members "p1" σ').1 = Return l ∧
    length (items l) = 1%nat.
Proof.
  do 3 eexists. split; [reflexivity|]. split_and!.
  - intros H. apply (f_equal (λ o, o ≫= (.!! KStr "m1"))) in H.
    vm_compute in H. discriminate.
  - reflexivity.
  - vm_compute. reflexivity.
Qed.

Lemma setdefault_lookup `{Countable K} {V} (k : K) (v : V) (d : gmap K V) :
  setdefault k v d !! k = Some (default v (d !! k)).
Proof.
  unfold setdefault. destruct (d !! k) eqn:E; simpl; [done|]. apply lookup_insert_eq.
Qed.

Lemma setdefault_lookup_ne `{Countable K} {V} (k k' : K) (v : V) (d : gmap K V) :
  k ≠ k' → setdefault k v d !! k' = d !! k'.
Proof.
  intros Hne. unfold setdefault. destruct (d !! k); [done|]. by apply lookup_insert_ne.
Qed.

(** C6 (amended): after a successful create stored under [key], a member
    collection is stored for [key]: the one that was stored before the
    create, unchanged, when there was one, and the empty collection when
    there was none.  In the second case a member list right after the
    create returns no members. *)
Theorem create_pool_members (body : list (string * json)) (σ σ' : store)
    (pool : gmap string json) :
  create_pool (JObj body) σ = (Return pool, σ') →
  ∃ kp kn,
    POOLS σ' !! (kp, kn) = Some pool ∧
    POOL_MEMBERS σ' !! (kp, kn) = Some (default ∅ (POOL_MEMBERS σ !! (kp, kn))) ∧
    (POOL_MEMBERS σ !! (kp, kn) = None → POOL_MEMBERS σ' !! (kp, kn) = Some ∅) ∧
    (∀ ms, POOL_MEMBERS σ !! (kp, kn) = Some ms → POOL_MEMBERS σ' !! (kp, kn) = Some ms) ∧
    (∀ k, k ≠ (kp, kn) → POOL_MEMBERS σ' !! k = POOL_MEMBERS σ !! k) ∧
    (∀ resource_id,
       key_of_id resource_id = (kp, kn) →
       POOL_MEMBERS σ !! (kp, kn) = None →
       ∃ link, list_pool_members resource_id σ' = (Return (MemberList [] link), σ')).
Proof.
  intros (name & kp & kn & _ & _ & _ & _ & _ & _ & ->)%create_pool_return.
  exists kp, kn. simpl.
  assert (setdefault (kp, kn) ∅ (POOL_MEMBERS σ) !! (kp, kn)
          = Some (default ∅ (POOL_MEMBERS σ !! (kp, kn)))) as Hm by apply setdefault_lookup.
  split_and!.
  - apply lookup_insert_eq.
  - exact Hm.
  - intros Hnone. by rewrite Hm, Hnone.
  - intros ms Hms. by rewrite Hm, Hms.
  - intros k Hk. by apply setdefault_lookup_ne.
  - intros rid Hkey Hnone. unfold list_pool_members, key_of_id in *.
    destruct (parse_f5_id rid) as [partition poolname]. simpl. rewrite Hkey.
    rewrite lookup_insert_eq, Hm, Hnone. simpl.
    rewrite map_to_list_empty. eexists. reflexivity.
Qed.

Lemma create_pool_members_witness :
  ∃ pool σ' link,
    create_pool body_p1 empty_store = (Return pool, σ') ∧
    list_pool_members "p1" σ' = (Return (MemberList [] link), σ').
Proof.
  destruct (create_pool_members [("name", JStr "p1")] empty_store
              (create_pool body_p1 empty_store).2
              (default ∅ (POOLS (create_pool body_p1 empty_store).2
                            !! (KStr "Common", KStr "p1"))))
    as (kp & kn & Hp & _ & _ & _ & _ & Hl); [reflexivity|].
  assert ((kp, kn) = (KStr "Common", KStr "p1")) as Hk.
  { destruct (decide ((kp, kn) = (KStr "Common", KStr "p1"))) as [|Hne]; [done|].
    exfalso. simpl in Hp. rewrite lookup_insert_ne in Hp by done.
    rewrite lookup_empty in Hp. discriminate. }
  destruct (Hl "p1") as [link Hlink]; [by rewrite Hk | by rewrite Hk |].
  do 3 eexists. split; [reflexivity | exact Hlink].
Defined.

(** ** Updates: the merge loops *)

Section Merge.

(** The loop of both merges, for a renaming [c] of the patch fields. *)
Variable c : string → string.

Definition merge_by (rec : gmap string json) (items : list (string * json)) : gmap string json :=
  foldl (λ rec kv, <[c kv.1 := kv.2]> rec) rec items.

Lemma merge_by_app rec l1 l2 : merge_by rec (l1 ++ l2) = merge_by (merge_by rec l1) l2.
Proof. apply foldl_app. Qed.

(** A field that no patch field is renamed to keeps its value. *)
Lemma merge_by_frame rec items f :
  (∀ k v, (k, v) ∈ items → c k ≠ f) → merge_by rec items !! f = rec !! f.
Proof.
  revert rec. induction items as [|[k v] items IH]; intros rec Hf; [done|].
  simpl. rewrite IH.
  - apply lookup_insert_ne. apply (Hf k v). left.
  - intros k' v' Hin. apply (Hf k' v'). by right.
Qed.

(** Last write wins: the value of a patch field is found under its
    renaming when no later patch field has the same renaming. *)
Lemma merge_by_last rec l1 k v l2 :
  (∀ k' v', (k', v') ∈ l2 → c k' ≠ c k) →
  merge_by rec (l1 ++ (k, v) :: l2) !! c k = Some v.
Proof.
  intros Hl2. rewrite merge_by_app. simpl.
  rewrite merge_by_frame by done. apply lookup_insert_eq.
Qed.

(** The value of a patch field is found under its renaming when no
    other patch field has the same renaming. *)
Lemma merge_by_write rec items k v :
  (k, v) ∈ items →
  (∀ k' v', (k', v') ∈ items → c k' = c k → (k', v') = (k, v)) →
  merge_by rec items !! c k = Some v.
Proof.
  induction items as [|[k0 v0] items IH] using rev_ind; intros Hin Hinj.
  { by apply elem_of_nil in Hin. }
  rewrite merge_by_app. simpl.
  destruct (decide (c k0 = c k)) as [Heq|Hne].
  - rewrite Heq, lookup_insert_eq. f_equal.
    assert ((k0, v0) = (k, v)) as [= _ ->]; [|done].
    apply Hinj; [apply elem_of_app; right; by left | done].
  - rewrite lookup_insert_ne by done. apply IH.
    + apply elem_of_app in Hin as [|[[= -> ->]|[]%elem_of_nil]%elem_of_cons]; done.
    + intros k' v' H'. apply Hinj; apply elem_of_app; by left.
Qed.

(** The fields of the merged record: those of the record and the
    renamings of the patch fields. *)
Lemma merge_by_dom rec items :
  dom (merge_by rec items) = dom rec ∪ list_to_set (c <$> items.*1).
Proof.
  revert rec. induction items as [|[k v] items IH]; intros rec; simpl.
  - set_solver.
  - rewrite IH, dom_insert_L. set_solver.
Qed.

End Merge.

Lemma merge_pool_by pool items : merge_pool pool items = merge_by canonical pool items.
Proof. reflexivity. Qed.

Lemma merge_by_id rec items : merge rec items = merge_by id rec items.
Proof. reflexivity. Qed.

(** In a dict, a key has one value. *)
Lemma NoDup_fst_functional (items : list (string * json)) :
  NoDup items.*1 → ∀ k v1 v2, (k, v1) ∈ items → (k, v2) ∈ items → v1 = v2.
Proof.
  induction items as [|[k0 v0] items IH]; intros Hnd k v1 v2 H1 H2.
  { by apply elem_of_nil in H1. }
  simpl in Hnd. apply NoDup_cons in Hnd as [Hk0 Hnd].
  assert (∀ v, (k0, v) ∈ items → False) as Hfresh.
  { intros v Hv. apply Hk0. apply list_elem_of_fmap. by exists (k0, v). }
  apply elem_of_cons in H1 as [H1|H1]; apply elem_of_cons in H2 as [H2|H2];
    simplify_eq; try done.
  - by destruct (Hfresh v2).
  - by destruct (Hfresh v1).
  - by eapply IH.
Qed.

(** An alias is a field that [update_pool] stores under another name. *)
Definition alias (k : string) : Prop := canonical k ≠ k.

Lemma canonical_idem k : canonical (canonical k) = canonical k.
Proof.
  unfold canonical. repeat (case_bool_decide; simpl; try done).
Qed.

Lemma patch_items_JObj patch : patch_items (JObj patch) = Some patch.
Proof. by destruct patch. Qed.

Lemma update_pool_return resource_id patch σ pool :
  POOLS σ !! key_of_id resource_id = Some pool →
  update_pool resource_id (JObj patch) σ
  = (Return (merge_pool pool patch),
     with_POOLS (insert (key_of_id resource_id) (merge_pool pool patch)) σ).
Proof. intros H. unfold update_pool. by rewrite H, patch_items_JObj. Qed.

Lemma update_pool_member_return resource_id member_id patch σ members member :
  POOL_MEMBERS σ !! key_of_id resource_id = Some members →
  members !! KStr (parse_f5_id member_id).2 = Some member →
  update_pool_member resource_id member_id (JObj patch) σ
  = (Return (merge member patch),
     with_POOL_MEMBERS
       (insert (key_of_id resource_id)
          (<[KStr (parse_f5_id member_id).2 := merge member patch]> members)) σ).
Proof.
  intros Hms Hm. unfold update_pool_member.
  destruct (parse_f5_id member_id) as [mpart mname]. simpl in *.
  by rewrite Hms; simpl; rewrite Hm, patch_items_JObj.
Qed.

Lemma update_virtual_return resource_id patch σ v :
  VIRTUALS σ !! key_of_id resource_id = Some v →
  update_virtual resource_id (JObj patch) σ
  = (Return (merge v patch),
     with_VIRTUALS (insert (key_of_id resource_id) (merge v patch)) σ).
Proof. intros H. unfold update_virtual. by rewrite H, patch_items_JObj. Qed.

(** ** Updates are merges (C8) *)

Definition patch_both : list (string * json) :=
  [("loadBalancingMode", JStr "ratio-member"); ("lb_method", JStr "least-connections")].

(** C8, as stated, fails for a pool patch that names a canonical field
    and, after it, its alias: [loadBalancingMode] is named in the patch
    but does not end with the patch's value for it, and [lb_method] is
    named in the patch but is not a field of the record afterwards. *)
Lemma update_pool_alias_overrides :
  NoDup patch_both.*1 ∧
  ("loadBalancingMode", JStr "ratio-member") ∈ patch_both ∧
  ("lb_method", JStr "least-connections") ∈ patch_both ∧
  ∃ pool' σ',
    update_pool "p1" (JObj patch_both) (create_pool body_p1 empty_store).2
      = (Return pool', σ') ∧
    pool' !! "loadBalancingMode" ≠ Some (JStr "ratio-member") ∧
    pool' !! "loadBalancingMode" = Some (JStr "least-connections") ∧
    pool' !! "lb_method" = None.
Proof.
  split_and!.
  - apply (bool_decide_unpack _). vm_compute. exact I.
  - by left.
  - right. by left.
  - do 2 eexists. split; [reflexivity|]. split_and!.
    + vm_compute. discriminate.
    + vm_compute. reflexivity.
    + vm_compute. reflexivity.
Qed.

Lemma canonical_not_alias k : ¬ alias k → canonical k = k.
Proof. unfold alias. intros H. by destruct (decide (canonical k = k)). Qed.

(** No patch field is stored under the name of an alias. *)
Lemma canonical_never_alias k k' : alias k → canonical k' ≠ k.
Proof.
  unfold alias, canonical. intros Hk Heq. apply Hk. clear Hk. subst k.
  repeat (case_bool_decide; simpl in *; try done).
Qed.

(** C8 (amended): both updates are shallow merges into the stored
    record.  A pool member update leaves every field that the patch does
    not name as it was and gives every field that the patch names the
    patch's value.  A pool update leaves every field that the patch does
    not name, and that no alias in the patch is stored under, as it was;
    it stores the value of every patch field under the field's canonical
    name, the last such patch field winning; so a patch field that is no
    alias and that no alias in the patch is stored under gets the patch's
    value; an alias itself is never stored: the field of an alias's name
    is after the update what it was before, also when the patch names
    the alias. *)
Theorem update_shallow_merge
    (resource_id member_id : string) (patch : list (string * json)) (σ : store) :
  NoDup patch.*1 →
  (∀ pool,
     POOLS σ !! key_of_id resource_id = Some pool →
     ∃ pool',
       update_pool resource_id (JObj patch) σ
         = (Return pool', with_POOLS (insert (key_of_id resource_id) pool') σ) ∧
       (∀ f, f ∉ patch.*1 →
             (∀ k, k ∈ patch.*1 → alias k → canonical k ≠ f) →
             pool' !! f = pool !! f) ∧
       (∀ l1 k v l2,
          patch = (l1 ++ (k, v) :: l2)%list →
          (∀ k' v', (k', v') ∈ l2 → canonical k' ≠ canonical k) →
          pool' !! canonical k = Some v) ∧
       (∀ k v, (k, v) ∈ patch → ¬ alias k →
               (∀ k', k' ∈ patch.*1 → alias k' → canonical k' ≠ k) →
               pool' !! k = Some v) ∧
       (∀ k, alias k → pool' !! k = pool !! k)) ∧
  (∀ members member,
     POOL_MEMBERS σ !! key_of_id resource_id = Some members →
     members !! KStr (parse_f5_id member_id).2 = Some member →
     ∃ member',
       update_pool_member resource_id member_id (JObj patch) σ
         = (Return member',
            with_POOL_MEMBERS
              (insert (key_of_id resource_id)
                 (<[KStr (parse_f5_id member_id).2 := member']> members)) σ) ∧
       (∀ f, f ∉ patch.*1 → member' !! f = member !! f) ∧
       (∀ k v, (k, v) ∈ patch → member' !! k = Some v)).
Proof.
  intros Hnd. split.
  - intros pool Hpool. exists (merge_pool pool patch).
    split; [by apply update_pool_return|]. rewrite merge_pool_by. split_and!.
    + intros f Hf Halias. apply merge_by_frame. intros k v Hin Heq.
      assert (k ∈ patch.*1) as Hk by (apply list_elem_of_fmap; by exists (k, v)).
      destruct (decide (canonical k = k)) as [Hc|Hc].
      * apply Hf. by rewrite <- Heq, Hc.
      * by apply (Halias k).
    + intros l1 k v l2 -> Hl2. by apply merge_by_last.
    + intros k v Hin Hna Halias.
      rewrite <- (canonical_not_alias k Hna) at 1.
      apply merge_by_write; [done|]. intros k' v' Hin' Heq.
      rewrite (canonical_not_alias k Hna) in Heq.
      assert (k' ∈ patch.*1) as Hk' by (apply list_elem_of_fmap; by exists (k', v')).
      destruct (decide (canonical k' = k')) as [Hc|Hc].
      * rewrite Hc in Heq. subst k'. f_equal. by eapply NoDup_fst_functional.
      * by destruct (Halias k' Hk' Hc).
    + intros k Hk. apply merge_by_frame. intros k' v' _. by apply canonical_never_alias.
  - intros members member Hms Hm. exists (merge member patch).
    split; [by apply update_pool_member_return|]. rewrite merge_by_id. split.
    + intros f Hf. apply merge_by_frame. intros k v Hin Heq. simpl in Heq. subst k.
      apply Hf. apply list_elem_of_fmap. by exists (f, v).
    + intros k v Hin. change k with (id k) at 1.
      apply merge_by_write; [done|]. intros k' v' Hin' Heq. simpl in Heq. subst k'.
      f_equal. by eapply NoDup_fst_functional.
Qed.

Definition patch_state : list (string * json) := [("state", JStr "user-down")].

Definition patch_alias : list (string * json) := [("lb_method", JStr "least-connections")].

(** A member patch [{"state": "user-down"}] sets the state and keeps the
    address; a pool patch [{"lb_method": ...}] sets [loadBalancingMode]
    and leaves the record without an [lb_method] field. *)
Lemma update_shallow_merge_witness :
  (∃ member' σ',
     update_pool_member "p1" "m1" (JObj patch_state) store_p1_m1 = (Return member', σ') ∧
     member' !! "state" = Some (JStr "user-down") ∧
     member' !! "address" = Some (JStr "10.0.0.1")) ∧
  (∃ pool' σ',
     update_pool "p1" (JObj patch_alias) store_p1_m1 = (Return pool', σ') ∧
     pool' !! "loadBalancingMode" = Some (JStr "least-connections") ∧
     pool' !! "lb_method" = None).
Proof.
  split.
  - destruct (update_shallow_merge "p1" "m1" patch_state store_p1_m1) as [_ Hm];
      [apply NoDup_singleton|].
    destruct (Hm members_p1 member_m1) as (member' & Hupd & Hframe & Hwrite);
      [reflexivity | reflexivity |].
    exists member'. eexists. split; [exact Hupd|]. split.
    + apply Hwrite. by left.
    + etrans; [apply (Hframe "address") | reflexivity].
      intros [[=]|[]%elem_of_nil]%elem_of_cons.
  - destruct (update_shallow_merge "p1" "m1" patch_alias store_p1_m1) as [Hp _];
      [apply NoDup_singleton|].
    destruct (Hp pool_p1) as (pool' & Hupd & _ & Hlast & _ & Halias); [reflexivity|].
    exists pool'. eexists. split; [exact Hupd|]. split.
    + apply (Hlast [] "lb_method" (JStr "least-connections") []); [reflexivity|].
      intros k' v' []%elem_of_nil.
    + etrans; [apply (Halias "lb_method") | reflexivity].
      unfold alias. discriminate.
Defined.

(** ** Updates keep the storage key (C10) *)

(** The fields that name a record. *)
Definition name_field (f : string) : Prop := f = "name" ∨ f = "tmPartition" ∨ f = "partition".

Lemma canonical_name_field k f : name_field f → canonical k = f → k = f.
Proof.
  unfold canonical. intros [->|[->| ->]];
    repeat (case_bool_decide; simpl; try done).
Qed.

Lemma update_pool_dom resource_id body_json σ :
  dom (POOLS (update_pool resource_id body_json σ).2) = dom (POOLS σ) ∧
  ∀ k, k ≠ key_of_id resource_id →
       POOLS (update_pool resource_id body_json σ).2 !! k = POOLS σ !! k.
Proof.
  unfold update_pool. destruct (POOLS σ !! key_of_id resource_id) eqn:E; [|done].
  destruct (patch_items body_json); [|done]. simpl. split.
  - by apply dom_insert_lookup_L.
  - intros k Hk. by apply lookup_insert_ne.
Qed.

Lemma update_virtual_dom resource_id body_json σ :
  dom (VIRTUALS (update_virtual resource_id body_json σ).2) = dom (VIRTUALS σ) ∧
  ∀ k, k ≠ key_of_id resource_id →
       VIRTUALS (update_virtual resource_id body_json σ).2 !! k = VIRTUALS σ !! k.
Proof.
  unfold update_virtual. destruct (VIRTUALS σ !! key_of_id resource_id) eqn:E; [|done].
  destruct (patch_items body_json); [|done]. simpl. split.
  - by apply dom_insert_lookup_L.
  - intros k Hk. by apply lookup_insert_ne.
Qed.

Lemma update_pool_member_dom resource_id member_id body_json σ :
  dom (POOL_MEMBERS (update_pool_member resource_id member_id body_json σ).2)
    = dom (POOL_MEMBERS σ) ∧
  ∀ k, dom <$> (POOL_MEMBERS (update_pool_member resource_id member_id body_json σ).2 !! k)
       = dom <$> (POOL_MEMBERS σ !! k).
Proof.
  unfold update_pool_member. destruct (parse_f5_id member_id) as [mpart mname].
  destruct (POOL_MEMBERS σ !! key_of_id resource_id) as [members|] eqn:E; simpl; [|done].
  destruct (members !! KStr mname) eqn:Em; [|done].
  destruct (patch_items body_json); [|done]. simpl. split.
  - by apply dom_insert_lookup_L.
  - intros k. destruct (decide (k = key_of_id resource_id)) as [->|Hk].
    + rewrite lookup_insert_eq, E. simpl. f_equal. by apply dom_insert_lookup_L.
    + by rewrite lookup_insert_ne.
Qed.

(** C10: no update changes the key a record is stored under.  The keys
    of the pool store, of the virtual-server store, of the member store
    and of every member collection are the same after an update as
    before, and records under other keys are untouched; a patch that
    names [name], [tmPartition] or [partition] writes that field inside
    the record, which stays under its key. *)
Theorem update_keeps_key
    (resource_id member_id : string) (body_json : json) (σ : store) :
  (dom (POOLS (update_pool resource_id body_json σ).2) = dom (POOLS σ) ∧
   (∀ k, k ≠ key_of_id resource_id →
         POOLS (update_pool resource_id body_json σ).2 !! k = POOLS σ !! k)) ∧
  (dom (VIRTUALS (update_virtual resource_id body_json σ).2) = dom (VIRTUALS σ) ∧
   (∀ k, k ≠ key_of_id resource_id →
         VIRTUALS (update_virtual resource_id body_json σ).2 !! k = VIRTUALS σ !! k)) ∧
  (dom (POOL_MEMBERS (update_pool_member resource_id member_id body_json σ).2)
     = dom (POOL_MEMBERS σ) ∧
   (∀ k, dom <$> (POOL_MEMBERS (update_pool_member resource_id member_id body_json σ).2 !! k)
         = dom <$> (POOL_MEMBERS σ !! k))) ∧
  (∀ patch f v,
     body_json = JObj patch → NoDup patch.*1 → name_field f → (f, v) ∈ patch →
     (∀ pool, POOLS σ !! key_of_id resource_id = Some pool →
        ∃ pool', POOLS (update_pool resource_id body_json σ).2 !! key_of_id resource_id
                   = Some pool' ∧
                 pool' !! f = Some v) ∧
     (∀ virtual, VIRTUALS σ !! key_of_id resource_id = Some virtual →
        ∃ virtual', VIRTUALS (update_virtual resource_id body_json σ).2
                      !! key_of_id resource_id = Some virtual' ∧
                    virtual' !! f = Some v) ∧
     (∀ members member,
        POOL_MEMBERS σ !! key_of_id resource_id = Some members →
        members !! KStr (parse_f5_id member_id).2 = Some member →
        ∃ members' member',
          POOL_MEMBERS (update_pool_member resource_id member_id body_json σ).2
            !! key_of_id resource_id = Some members' ∧
          members' !! KStr (parse_f5_id member_id).2 = Some member' ∧
          member' !! f = Some v)).
Proof.
  split_and!; try apply update_pool_dom; try apply update_virtual_dom;
    try apply update_pool_member_dom.
  intros patch f v -> Hnd Hf Hin.
  assert (∀ rec, merge rec patch !! f = Some v) as Hmerge.
  { intros rec. rewrite merge_by_id. change f with (id f) at 1.
    apply merge_by_write; [done|]. intros k' v' Hin' Heq. simpl in Heq. subst k'.
    f_equal. by eapply NoDup_fst_functional. }
  split_and!.
  - intros pool Hpool. rewrite (update_pool_return _ _ _ _ Hpool). simpl.
    eexists. split; [apply lookup_insert_eq|].
    rewrite merge_pool_by.
    assert (canonical f = f) as Hcf by (destruct Hf as [->|[->| ->]]; reflexivity).
    rewrite <- Hcf at 1.
    apply merge_by_write; [done|]. intros k' v' Hin' Heq.
    rewrite Hcf in Heq. apply (canonical_name_field _ _ Hf) in Heq. subst k'.
    f_equal. by eapply NoDup_fst_functional.
  - intros virtual Hv. rewrite (update_virtual_return _ _ _ _ Hv). simpl.
    eexists. split; [apply lookup_insert_eq | apply Hmerge].
  - intros members member Hms Hm.
    rewrite (update_pool_member_return _ _ _ _ _ _ Hms Hm). simpl.
    do 2 eexists. split; [apply lookup_insert_eq|].
    split; [apply lookup_insert_eq | apply Hmerge].
Qed.

Definition patch_rename : list (string * json) := [("name", JStr "other")].

(** After renaming pool [p1] to [other] by an update, the record with
    name [other] is still the one stored under [p1], and nothing is
    stored under [other]. *)
Lemma update_keeps_key_witness :
  let σ' := (update_pool "p1" (JObj patch_rename) (create_pool body_p1 empty_store).2).2 in
  (∃ pool', POOLS σ' !! key_of_id "p1" = Some pool' ∧ pool' !! "name" = Some (JStr "other")) ∧
  get_pool "other" σ' = (Raise (HTTPException 404 "pool not found"), σ').
Proof.
  split.
  - destruct (update_keeps_key "p1" "m1" (JObj patch_rename) (create_pool body_p1 empty_store).2)
      as (_ & _ & _ & H).
    destruct (H patch_rename "name" (JStr "other")) as (Hp & _ & _).
    + reflexivity.
    + apply NoDup_singleton.
    + by left.
    + by left.
    + apply (Hp (default ∅ (POOLS (create_pool body_p1 empty_store).2 !! key_of_id "p1"))).
      reflexivity.
  - reflexivity.
Defined.

(** ** Member operations when the pool is absent (C7, C9) *)

Lemma key_of_id_parse resource_id :
  key_of_id resource_id = (KStr (parse_f5_id resource_id).1, KStr (parse_f5_id resource_id).2).
Proof. unfold key_of_id. by destruct (parse_f5_id resource_id). Qed.

Lemma list_pool_members_absent resource_id σ :
  POOLS σ !! key_of_id resource_id = None →
  list_pool_members resource_id σ = (Raise (HTTPException 404 "pool not found"), σ).
Proof.
  rewrite key_of_id_parse. unfold list_pool_members.
  destruct (parse_f5_id resource_id) as [p n]. simpl. by intros ->.
Qed.

Lemma create_pool_member_absent repr resource_id body_json σ :
  POOLS σ !! key_of_id resource_id = None →
  create_pool_member repr resource_id body_json σ
  = (Raise (HTTPException 404 "pool not found"), σ).
Proof.
  rewrite key_of_id_parse. unfold create_pool_member.
  destruct (parse_f5_id resource_id) as [p n]. simpl. by intros ->.
Qed.

Lemma get_pool_member_absent resource_id member_id σ :
  POOLS σ !! key_of_id resource_id = None →
  get_pool_member resource_id member_id σ = (Raise (HTTPException 404 "pool not found"), σ).
Proof.
  unfold get_pool_member. destruct (parse_f5_id member_id). by intros ->.
Qed.

Lemma update_pool_member_absent resource_id member_id body_json σ :
  POOL_MEMBERS σ !! key_of_id resource_id = None →
  update_pool_member resource_id member_id body_json σ
  = (Raise (HTTPException 404 "member not found"), σ).
Proof.
  unfold update_pool_member. destruct (parse_f5_id member_id). by intros ->.
Qed.

Lemma delete_pool_member_absent resource_id member_id σ :
  POOL_MEMBERS σ !! key_of_id resource_id = None →
  delete_pool_member resource_id member_id σ
  = (Raise (HTTPException 404 "member not found"), σ).
Proof.
  unfold delete_pool_member. destruct (parse_f5_id member_id). by intros ->.
Qed.

(** C7: what the code does.  Deleting an existing pool removes its record
    and its member collection and nothing else; afterwards every member
    operation on an identifier of that key raises 404 and changes
    nothing: listing, creating and getting with "pool not found", as the
    claim says, but updating and deleting a member with "member not
    found", because these two handlers have no pool check.  Deleting an
    absent pool raises 404 "pool not found" and changes nothing. *)
Theorem delete_pool_removes_members
    (repr : json → string) (resource_id : string) (σ : store) :
  (is_Some (POOLS σ !! key_of_id resource_id) →
   ∃ σ',
     delete_pool resource_id σ = (Return deleted, σ') ∧
     POOLS σ' = delete (key_of_id resource_id) (POOLS σ) ∧
     POOL_MEMBERS σ' = delete (key_of_id resource_id) (POOL_MEMBERS σ) ∧
     VIRTUALS σ' = VIRTUALS σ ∧ ACTIVE_TOKENS σ' = ACTIVE_TOKENS σ ∧
     POOLS σ' !! key_of_id resource_id = None ∧
     POOL_MEMBERS σ' !! key_of_id resource_id = None ∧
     ∀ pool_id,
       key_of_id pool_id = key_of_id resource_id →
       list_pool_members pool_id σ' = (Raise (HTTPException 404 "pool not found"), σ') ∧
       (∀ body_json,
          create_pool_member repr pool_id body_json σ'
          = (Raise (HTTPException 404 "pool not found"), σ')) ∧
       (∀ member_id,
          get_pool_member pool_id member_id σ'
          = (Raise (HTTPException 404 "pool not found"), σ')) ∧
       (∀ member_id body_json,
          update_pool_member pool_id member_id body_json σ'
          = (Raise (HTTPException 404 "member not found"), σ')) ∧
       (∀ member_id,
          delete_pool_member pool_id member_id σ'
          = (Raise (HTTPException 404 "member not found"), σ'))) ∧
  (POOLS σ !! key_of_id resource_id = None →
   delete_pool resource_id σ = (Raise (HTTPException 404 "pool not found"), σ)).
Proof.
  split.
  - intros [pool Hpool]. unfold delete_pool. rewrite Hpool. eexists. split; [done|].
    simpl. split_and!; try done; try apply lookup_delete_eq.
    intros pool_id Hk. split_and!; intros.
    + apply list_pool_members_absent. rewrite Hk. apply lookup_delete_eq.
    + apply create_pool_member_absent. rewrite Hk. apply lookup_delete_eq.
    + apply get_pool_member_absent. rewrite Hk. apply lookup_delete_eq.
    + apply update_pool_member_absent. rewrite Hk. apply lookup_delete_eq.
    + apply delete_pool_member_absent. rewrite Hk. apply lookup_delete_eq.
  - intros Hnone. unfold delete_pool. by rewrite Hnone.
Qed.

(** Create pool [p1], add member [m1], delete [p1]: listing the members
    of [p1] raises 404 "pool not found"; a PATCH and a DELETE of member
    [m1] raise 404 "member not found". *)
Lemma delete_pool_removes_members_witness :
  ∃ σ',
    delete_pool "p1" store_p1_m1 = (Return deleted, σ') ∧
    list_pool_members "p1" σ' = (Raise (HTTPException 404 "pool not found"), σ') ∧
    update_pool_member "p1" "m1" (JObj patch_state) σ'
      = (Raise (HTTPException 404 "member not found"), σ') ∧
    delete_pool_member "p1" "m1" σ' = (Raise (HTTPException 404 "member not found"), σ').
Proof.
  destruct (delete_pool_removes_members (λ _, "") "p1" store_p1_m1) as [H _].
  destruct H as (σ' & Hdel & _ & _ & _ & _ & _ & _ & Hops).
  { exists pool_p1. reflexivity. }
  destruct (Hops "p1" eq_refl) as (Hl & _ & _ & Hu & Hd).
  exists σ'. split; [exact Hdel|]. split; [exact Hl|]. split; [apply Hu | apply Hd].
Defined.

(** ** Reachable stores *)

(** The requests the simulator serves.  The gate runs before each
    protected handler; here it is a request of its own, so that the
    stores below include every store the process can be in. *)
Inductive request : Type :=
  | ReqLogin (env : login_env) (body_json : json)
  | ReqAuthenticate (auth_token : option string) (cred_username cred_password : string)
                    (current_micros : Z)
  | ReqGetTokenInfo (token_id : string) (current_micros : Z)
  | ReqCreatePool (body_json : json)
  | ReqGetPool (resource_id : string)
  | ReqUpdatePool (resource_id : string) (body_json : json)
  | ReqDeletePool (resource_id : string)
  | ReqListPoolMembers (resource_id : string)
  | ReqCreatePoolMember (resource_id : string) (body_json : json)
  | ReqGetPoolMember (resource_id member_id : string)
  | ReqUpdatePoolMember (resource_id member_id : string) (body_json : json)
  | ReqDeletePoolMember (resource_id member_id : string)
  | ReqCreateVirtual (body_json : json)
  | ReqGetVirtual (resource_id : string)
  | ReqUpdateVirtual (resource_id : string) (body_json : json)
  | ReqDeleteVirtual (resource_id : string).

Section Process.

Variables DEFAULT_USERNAME DEFAULT_PASSWORD : string.
Variable repr_container : json → string.

(** The store after a request. *)
Definition handle (r : request) (σ : store) : store :=
  match r with
  | ReqLogin env b => (login DEFAULT_USERNAME DEFAULT_PASSWORD env b σ).2
  | ReqAuthenticate t cu cp now =>
      (authenticate_user_or_token DEFAULT_USERNAME DEFAULT_PASSWORD t cu cp now σ).2
  | ReqGetTokenInfo t now => (get_token_info t now σ).2
  | ReqCreatePool b => (create_pool b σ).2
  | ReqGetPool rid => (get_pool rid σ).2
  | ReqUpdatePool rid b => (update_pool rid b σ).2
  | ReqDeletePool rid => (delete_pool rid σ).2
  | ReqListPoolMembers rid => (list_pool_members rid σ).2
  | ReqCreatePoolMember rid b => (create_pool_member repr_container rid b σ).2
  | ReqGetPoolMember rid mid => (get_pool_member rid mid σ).2
  | ReqUpdatePoolMember rid mid b => (update_pool_member rid mid b σ).2
  | ReqDeletePoolMember rid mid => (delete_pool_member rid mid σ).2
  | ReqCreateVirtual b => (create_virtual b σ).2
  | ReqGetVirtual rid => (get_virtual rid σ).2
  | ReqUpdateVirtual rid b => (update_virtual rid b σ).2
  | ReqDeleteVirtual rid => (delete_virtual rid σ).2
  end.

(** The stores the process can be in: it starts with four empty
    dictionaries and serves requests. *)
Inductive reachable : store → Prop :=
  | reachable_start : reachable empty_store
  | reachable_step σ r : reachable σ → reachable (handle r σ).

(** Every member collection belongs to a stored pool. *)
Definition members_owned (σ : store) : Prop :=
  ∀ k, POOLS σ !! k = None → POOL_MEMBERS σ !! k = None.

Lemma members_owned_same σ σ' :
  POOLS σ' = POOLS σ → POOL_MEMBERS σ' = POOL_MEMBERS σ →
  members_owned σ → members_owned σ'.
Proof. unfold members_owned. by intros -> ->. Qed.

Ltac case_handler H :=
  repeat match goal with
         | |- context [match ?x with _ => _ end] =>
             lazymatch x with
             | context [match _ with _ => _ end] => fail
             | _ => destruct x eqn:?
             end
         end.

Lemma handle_members_owned r σ : members_owned σ → members_owned (handle r σ).
Proof.
  intros Hinv. destruct r; simpl.
  - (* login *)
    apply (members_owned_same σ); [| |done]; unfold login; case_handler H; done.
  - apply (members_owned_same σ); [| |done];
      unfold authenticate_user_or_token; case_handler H; done.
  - apply (members_owned_same σ); [| |done]; unfold get_token_info; case_handler H; done.
  - (* create_pool *)
    unfold create_pool. case_handler H; simpl; try done.
    intros k Hk. simpl in *.
    destruct (decide (k = (p, p0))) as [->|Hne].
    + by rewrite lookup_insert_eq in Hk.
    + rewrite lookup_insert_ne in Hk by done.
      rewrite setdefault_lookup_ne by done. by apply Hinv.
  - unfold get_pool. case_handler H; done.
  - (* update_pool *)
    unfold update_pool. case_handler H; simpl; try done.
    intros k Hk. simpl in *.
    destruct (decide (k = key_of_id resource_id)) as [->|Hne].
    + by rewrite lookup_insert_eq in Hk.
    + rewrite lookup_insert_ne in Hk by done. by apply Hinv.
  - (* delete_pool *)
    unfold delete_pool. case_handler H; simpl; try done.
    intros k Hk. simpl in *.
    destruct (decide (k = key_of_id resource_id)) as [->|Hne].
    + apply lookup_delete_eq.
    + rewrite lookup_delete_ne in Hk by done.
      rewrite lookup_delete_ne by done. by apply Hinv.
  - unfold list_pool_members. case_handler H; done.
  - (* create_pool_member *)
    unfold create_pool_member. destruct (parse_f5_id resource_id) as [partition poolname].
    destruct (POOLS σ !! (KStr partition, KStr poolname)) eqn:Hpool; [|done].
    assert (members_owned (with_POOL_MEMBERS (setdefault (KStr partition, KStr poolname) ∅) σ))
      as Hinv1.
    { intros k Hk. simpl in *.
      destruct (decide (k = (KStr partition, KStr poolname))) as [->|Hne]; [congruence|].
      rewrite setdefault_lookup_ne by done. by apply Hinv. }
    case_handler H; simpl; try done.
    intros k Hk. simpl in *.
    destruct (decide (k = (KStr partition, KStr poolname))) as [->|Hne]; [congruence|].
    rewrite lookup_insert_ne by done. by apply Hinv1.
  - unfold get_pool_member. case_handler H; done.
  - (* update_pool_member *)
    unfold update_pool_member. destruct (parse_f5_id member_id) as [mpart mname].
    destruct (POOL_MEMBERS σ !! key_of_id resource_id) as [members|] eqn:Hms; simpl; [|done].
    case_handler H; simpl; try done.
    intros k Hk. simpl in *.
    destruct (decide (k = key_of_id resource_id)) as [->|Hne].
    + apply Hinv in Hk. congruence.
    + rewrite lookup_insert_ne by done. by apply Hinv.
  - (* delete_pool_member *)
    unfold delete_pool_member. destruct (parse_f5_id member_id) as [mpart mname].
    destruct (POOL_MEMBERS σ !! key_of_id resource_id) as [members|] eqn:Hms; simpl; [|done].
    case_handler H; simpl; try done.
    intros k Hk. simpl in *.
    destruct (decide (k = key_of_id resource_id)) as [->|Hne].
    + apply Hinv in Hk. congruence.
    + rewrite lookup_insert_ne by done. by apply Hinv.
  - apply (members_owned_same σ); [| |done]; unfold create_virtual; case_handler H; done.
  - unfold get_virtual. case_handler H; done.
  - apply (members_owned_same σ); [| |done]; unfold update_virtual; case_handler H; done.
  - apply (members_owned_same σ); [| |done]; unfold delete_virtual; case_handler H; done.
Qed.

Lemma reachable_members_owned σ : reachable σ → members_owned σ.
Proof.
  induction 1 as [|σ r _ IH]; [done | by apply handle_members_owned].
Qed.

End Process.

(** C9: what the member operations do on a reachable store when the
    parent pool is absent.  Listing, creating and getting raise 404 "pool
    not found" before anything else is looked at (whatever the body or
    the member identifier).  Updating and deleting a member have no pool
    check: they look the member up in an empty collection and raise 404
    "member not found". *)
Theorem member_ops_absent_pool
    (DEFAULT_USERNAME DEFAULT_PASSWORD : string) (repr : json → string)
    (σ : store) (resource_id : string) :
  reachable DEFAULT_USERNAME DEFAULT_PASSWORD repr σ →
  POOLS σ !! key_of_id resource_id = None →
  list_pool_members resource_id σ = (Raise (HTTPException 404 "pool not found"), σ) ∧
  (∀ body_json,
     create_pool_member repr resource_id body_json σ
     = (Raise (HTTPException 404 "pool not found"), σ)) ∧
  (∀ member_id,
     get_pool_member resource_id member_id σ
     = (Raise (HTTPException 404 "pool not found"), σ)) ∧
  (∀ member_id body_json,
     update_pool_member resource_id member_id body_json σ
     = (Raise (HTTPException 404 "member not found"), σ)) ∧
  (∀ member_id,
     delete_pool_member resource_id member_id σ
     = (Raise (HTTPException 404 "member not found"), σ)).
Proof.
  intros Hreach Hpool.
  pose proof (reachable_members_owned _ _ _ _ Hreach _ Hpool) as Hms.
  split_and!; intros.
  - by apply list_pool_members_absent.
  - by apply create_pool_member_absent.
  - by apply get_pool_member_absent.
  - by apply update_pool_member_absent.
  - by apply delete_pool_member_absent.
Qed.

(** On a fresh process, a PATCH and a DELETE of member [m1] of the
    missing pool [nopool] report the member, not the pool, as missing. *)
Lemma member_ops_absent_pool_witness :
  update_pool_member "nopool" "m1" (JObj patch_state) empty_store
    = (Raise (HTTPException 404 "member not found"), empty_store) ∧
  delete_pool_member "nopool" "m1" empty_store
    = (Raise (HTTPException 404 "member not found"), empty_store) ∧
  list_pool_members "nopool" empty_store
    = (Raise (HTTPException 404 "pool not found"), empty_store).
Proof.
  destruct (member_ops_absent_pool "admin" "f5password" (λ _, "") empty_store "nopool")
    as (Hl & _ & _ & Hu & Hd).
  - apply reachable_start.
  - reflexivity.
  - split; [apply Hu|]. split; [apply Hd | exact Hl].
Defined.

(** On a reachable store, a pool created under a key that held no pool
    starts with the empty member collection. *)
Lemma create_pool_fresh_members
    (DEFAULT_USERNAME DEFAULT_PASSWORD : string) (repr : json → string)
    (body : list (string * json)) (σ σ' : store) (pool : gmap string json) :
  reachable DEFAULT_USERNAME DEFAULT_PASSWORD repr σ →
  create_pool (JObj body) σ = (Return pool, σ') →
  ∃ k, POOLS σ' !! k = Some pool ∧
       (POOLS σ !! k = None → POOL_MEMBERS σ' !! k = Some ∅).
Proof.
  intros Hreach (name & kp & kn & _ & _ & _ & _ & _ & _ & ->)%create_pool_return.
  exists (kp, kn). simpl. split; [apply lookup_insert_eq|].
  intros Hnone. rewrite setdefault_lookup.
  by rewrite (reachable_members_owned _ _ _ _ Hreach _ Hnone).
Qed.

(** * Further properties of the code *)

(** ** Identifier resolver: shape of the result *)

Module PyStrMore.
Import PyStr.








End PyStrMore.




(** ** Authentication gate: issued tokens *)













Section GateMore.

Variables DEFAULT_USERNAME DEFAULT_PASSWORD : string.




End GateMore.





(** ** The process: what each kind of request can touch *)





Section ProcessMore.

Variables DEFAULT_USERNAME DEFAULT_PASSWORD : string.
Variable repr_container : json → string.








End ProcessMore.


(** ** The process: shape of the reachable stores *)




Section Shape.

Variables DEFAULT_USERNAME DEFAULT_PASSWORD : string.
Variable repr_container : json → string.




End Shape.

(** ** The process: failed requests, and members that can be read *)




Section Failures.

Variables DEFAULT_USERNAME DEFAULT_PASSWORD : string.
Variable repr_container : json → string.



End Failures.



(** ** Pools: create, read back, create again *)










(** ** Creates are upserts; updates with no patch are no-ops *)






(** ** Pool members: create, read, delete *)











(** ** Virtual servers: create, read, delete *)





(** ** Naming a pool and a virtual server from [fullPath] *)




